(** * get_blogspot_linked_images.py: a shallow embedding and its properties

    The script crawls the posts of a Blogger blog, scans each post for
    images wrapped in a link, follows links that are HTML pages with an
    embedded image, and optionally downloads the results.

    The embedding keeps the functions of the script under their own names.
    What the script obtains from the Python library or from the outside
    world is a [Variable] of a section: the tokenisation done by
    [html.parser.HTMLParser], [bytes.decode], [json.loads], [os.path.join]
    and the HTTP server answering [urllib.request.urlopen]. The generators
    of [linked_image_urls] are sequences of outcomes consumed by the loops
    of [main]; [prettyprint_size], which computes with floating-point
    numbers, is a [Variable] of [main]. *)

From Stdlib Require Import ZArith Strings.String Strings.Ascii Strings.Byte List Bool Lia.
From stdpp Require Import gmap strings.
Import ListNotations.

#[local] Open Scope string_scope.
#[local] Open Scope list_scope.

(** ** Python values, exceptions and built-ins *)

(** The exceptions the script can raise. *)
Inductive exn : Type :=
| IndexError      (* list index out of range, pop from empty list *)
| KeyError        (* missing dictionary key *)
| AttributeError  (* method call on None *)
| ValueError      (* json.loads on malformed text *)
| URLError        (* transport failure in urlopen *)
| OSError.        (* open() failure *)

Inductive result (A : Type) : Type :=
| OK (a : A)
| Raise (e : exn).
Arguments OK {A} a.
Arguments Raise {A} e.

Definition rbind {A B : Type} (r : result A) (k : A -> result B) : result B :=
  match r with
  | OK a => k a
  | Raise e => Raise e
  end.

Notation "'let!' x ':=' r 'in' k" := (rbind r (fun x => k))
  (at level 10, x name, r at level 100, k at level 200).

(** A value that is a [str] or [None]: the attribute values reported by
    [HTMLParser] ([<a href>] has the value [None]) and the result of a
    header lookup. *)
Inductive pyval : Type :=
| Str (s : string)
| PyNone.

(** [s.startswith(p)] and [s.endswith(ext)]: case-sensitive. *)
Definition startswith (s p : string) : bool := String.prefix p s.

Definition endswith (s ext : string) : bool :=
  let n := String.length s in
  let k := String.length ext in
  (k <=? n)%nat && String.eqb (String.substring (n - k) k s) ext.

(** [s.rfind(sub)]: the highest index at which [sub] occurs, [-1] if none. *)
Fixpoint rfind_aux (sub s : string) (i last : Z) : Z :=
  let last' := if String.prefix sub s then i else last in
  match s with
  | EmptyString => last'
  | String _ s' => rfind_aux sub s' (i + 1)%Z last'
  end.

Definition rfind (s sub : string) : Z := rfind_aux sub s 0%Z (-1)%Z.

(** [s[start:]], with Python's treatment of negative and large indices. *)
Definition slice_from (s : string) (start : Z) : string :=
  let n := Z.of_nat (String.length s) in
  let i := if (start <? 0)%Z then Z.max 0 (start + n) else Z.min start n in
  String.substring (Z.to_nat i) (String.length s - Z.to_nat i) s.

(** Truth value of a list: a list is falsy exactly when it is empty. *)
Definition truthy {A : Type} (l : list A) : bool :=
  match l with
  | [] => false
  | _ :: _ => true
  end.

(** [l[i]] with negative indices counted from the end. *)
Definition list_getitem {A : Type} (l : list A) (i : Z) : result A :=
  let n := Z.of_nat (length l) in
  let j := if (i <? 0)%Z then (i + n)%Z else i in
  if ((j <? 0) || (n <=? j))%Z then Raise IndexError
  else match nth_error l (Z.to_nat j) with
       | Some x => OK x
       | None => Raise IndexError
       end.

(** [l.pop()]: removes and returns the last element. *)
Definition list_pop {A : Type} (l : list A) : result (A * list A) :=
  match last l with
  | Some x => OK (x, removelast l)
  | None => Raise IndexError
  end.

(** ** Utilities of the script *)

Definition API_URL_BASE : string := "https://www.googleapis.com/blogger/v3".

Definition extensions : list string := ["png"; "gif"; "jpg"; "jpeg"].

(** [is_image_filename] returns the LIST of the four suffix tests; calling
    [endswith] on [None] raises. *)
Definition is_image_filename (v : pyval) : result (list bool) :=
  match v with
  | Str s => OK (map (fun ext => endswith s ext) extensions)
  | PyNone => Raise AttributeError
  end.

(** What the name of [is_image_filename] and the specification describe:
    some extension is a suffix of the string. *)
Definition has_image_extension (s : string) : bool :=
  existsb (fun ext => endswith s ext) extensions.

Fixpoint find_key {V : Type} (list_kvpairs : list (string * V)) (search : string)
  : list V :=
  match list_kvpairs with
  | [] => []
  | (key, value) :: rest =>
      if String.eqb key search then value :: find_key rest search
      else find_key rest search
  end.

(** ** The tag scanners *)

(** The calls [HTMLParser.feed] makes on a subclass, in document order.
    A self-closing tag is reported as a start tag followed by an end tag
    (the default [handle_startendtag]); text, comments and declarations go
    to handlers neither scanner overrides. *)
Inductive event : Type :=
| StartTag (tag : string) (attrs : list (string * pyval))
| EndTag (tag : string)
| Ignored.

Class HTMLParser (S : Type) : Type := {
  handle_starttag : S -> string -> list (string * pyval) -> result S;
  handle_endtag : S -> string -> result S
}.

Definition handle_event {S : Type} `{HTMLParser S} (st : S) (e : event) : result S :=
  match e with
  | StartTag tag attrs => handle_starttag st tag attrs
  | EndTag tag => handle_endtag st tag
  | Ignored => OK st
  end.

(** The handlers run in order; the first exception leaves [feed]. *)
Fixpoint feed_events {S : Type} `{HTMLParser S} (st : S) (evs : list event)
  : result S :=
  match evs with
  | [] => OK st
  | e :: rest => let! st' := handle_event st e in feed_events st' rest
  end.

Module ImageSearcher.

Record t : Type := Build { image_sources : list pyval }.

Definition init : t := {| image_sources := [] |}.

Definition starttag (self : t) (tag : string) (attrs : list (string * pyval))
  : result t :=
  if String.eqb tag "img" then
    let src := find_key attrs "src" in
    let! src0 := list_getitem src 0 in
    OK {| image_sources := image_sources self ++ [src0] |}
  else OK self.

#[global] Instance parser : HTMLParser t :=
  {| handle_starttag := starttag;
     handle_endtag := fun self _ => OK self |}.

End ImageSearcher.

Module ImageLinkSearcher.

Record t : Type := Build { linkstack : list pyval; images : list pyval }.

Definition init : t := {| linkstack := []; images := [] |}.

Definition starttag (self : t) (tag : string) (attrs : list (string * pyval))
  : result t :=
  let! self1 :=
    if String.eqb tag "a" then
      let hrefs := find_key attrs "href" in
      if truthy hrefs then
        let! href0 := list_getitem hrefs 0 in
        OK {| linkstack := linkstack self ++ [href0]; images := images self |}
      else OK self
    else OK self in
  if String.eqb tag "img" then
    if truthy (linkstack self1) then
      let! link := list_getitem (linkstack self1) (-1) in
      let! tests := is_image_filename link in
      if truthy tests then
        OK {| linkstack := linkstack self1; images := images self1 ++ [link] |}
      else OK self1
    else OK self1
  else OK self1.

Definition endtag (self : t) (tag : string) : result t :=
  if String.eqb tag "a" then
    let! popped := list_pop (linkstack self) in
    OK {| linkstack := snd popped; images := images self |}
  else OK self.

#[global] Instance parser : HTMLParser t :=
  {| handle_starttag := starttag; handle_endtag := endtag |}.

End ImageLinkSearcher.

(** ** The outside world *)

(** What the script reads from the object [urlopen] returns: the
    [Content-Type] header ([None] when the header is absent) and the body. *)
Record response : Type := Response { content_type : pyval; body : list byte }.

(** The JSON object of the posts listing, as far as [get_all_posts] reads
    it: [items] is an array of posts and [nextPageToken] a string, and
    either key may be absent. *)
Record page (P : Type) : Type :=
  Page { items : option (list P); nextPageToken : option string }.
Arguments Page {P} items nextPageToken.
Arguments items {P} p.
Arguments nextPageToken {P} p.

(** [data[key]] on a dictionary: [KeyError] when the key is absent. *)
Definition dict_getitem {A : Type} (field : option A) : result A :=
  match field with
  | Some v => OK v
  | None => Raise KeyError
  end.

(** The world the script acts on: the URLs requested so far (most recent
    first) and the files written. *)
Record world : Type := World { requests : list string; files : gmap string (list byte) }.

(** The world after a request for [url]. *)
Definition visit (url : string) (w : world) : world :=
  {| requests := url :: requests w; files := files w |}.

(** Computations that change the world and may raise. *)
Definition M (A : Type) : Type := world -> result A * world.

Definition ret {A : Type} (a : A) : M A := fun w => (OK a, w).

Definition lift {A : Type} (r : result A) : M A := fun w => (r, w).

Definition bind {A B : Type} (m : M A) (k : A -> M B) : M B :=
  fun w =>
    match m w with
    | (OK a, w') => k a w'
    | (Raise e, w') => (Raise e, w')
    end.

Notation "x <- m ;; k" := (bind m (fun x => k))
  (at level 100, m at next level, right associativity).

Section Script.

(** The type of a post: [get_all_posts] never looks inside one. *)
Context {P : Type}.

(** The HTTP server: its answer to a request may depend on the requests
    made before; [Raise] is a transport failure. *)
Variable server : list string -> string -> result response.

(** [bytes.decode('utf8', 'ignore')]. *)
Variable decode : list byte -> string.

(** [json.loads] on the text of a posts listing. *)
Variable json_loads : string -> result (page P).

(** The handler calls [HTMLParser.feed] makes for a document. *)
Variable html_events : string -> list event.

(** [os.path.join] on two components. *)
Variable path_join : string -> string -> string.

(** Whether [open(path, 'wb')] succeeds. *)
Variable openable : string -> bool.

Definition urlopen (url : string) : M response :=
  fun w => (server (requests w) url, visit url w).

Definition open_wb (path : string) : M unit :=
  fun w =>
    if openable path
    then (OK tt, {| requests := requests w; files := <[path := []]> (files w) |})
    else (Raise OSError, w).

Definition file_write (path : string) (data : list byte) : M unit :=
  fun w => (OK tt, {| requests := requests w; files := <[path := data]> (files w) |}).

(** [parser.feed(html)] *)
Definition feed {S : Type} `{HTMLParser S} (parser : S) (html : string) : result S :=
  feed_events parser (html_events html).

Definition call_json (url : string) : M (page P) :=
  response <- urlopen url ;;
  let str_response := decode (body response) in
  lift (json_loads str_response).

Definition posts_url (blog_id api_key : string) : string :=
  API_URL_BASE ++ "/blogs/" ++ blog_id ++ "/posts?key=" ++ api_key.

Definition posts_page_url (blog_id api_key token : string) : string :=
  API_URL_BASE ++ "/blogs/" ++ blog_id ++ "/posts?key=" ++ api_key
    ++ "&pageToken=" ++ token.

(** The three statements inside the [try] of [get_all_posts]: they give the
    next [data] and the extended [items] (here [posts]). *)
Definition get_all_posts_try (blog_id api_key : string) (data : page P)
    (posts : list P) : M (page P * list P) :=
  token <- lift (dict_getitem (nextPageToken data)) ;;
  let url := posts_page_url blog_id api_key token in
  data' <- call_json url ;;
  more <- lift (dict_getitem (items data')) ;;
  ret (data', posts ++ more).

(** [while has_more]: a [KeyError] raised inside the [try] ends the loop,
    any other exception leaves the function. [fuel] bounds the number of
    iterations; [None] means the bound was reached. *)
Fixpoint get_all_posts_loop (fuel : nat) (blog_id api_key : string)
    (data : page P) (posts : list P) (w : world)
  : option (result (list P) * world) :=
  match fuel with
  | O => None
  | S fuel' =>
      match get_all_posts_try blog_id api_key data posts w with
      | (OK (data', posts'), w') =>
          get_all_posts_loop fuel' blog_id api_key data' posts' w'
      | (Raise KeyError, w') => Some (OK posts, w')
      | (Raise e, w') => Some (Raise e, w')
      end
  end.

Definition get_all_posts (fuel : nat) (blog_id api_key : string) (w : world)
  : option (result (list P) * world) :=
  let url := posts_url blog_id api_key in
  match (data <- call_json url ;;
         posts <- lift (dict_getitem (items data)) ;;
         ret (data, posts)) w with
  | (OK (data, posts), w') => get_all_posts_loop fuel blog_id api_key data posts w'
  | (Raise e, w') => Some (Raise e, w')
  end.

Definition images_in_html (html_bytes : list byte) : result (list pyval) :=
  let parser := ImageSearcher.init in
  let encoded := decode html_bytes in
  let! parser' := feed parser encoded in
  OK (ImageSearcher.image_sources parser').

Definition find_link_images (html : string) : result (list pyval) :=
  let parser := ImageLinkSearcher.init in
  let! parser' := feed parser html in
  OK (ImageLinkSearcher.images parser').

Definition follow_image_embeds (url : string) : M pyval :=
  response <- urlopen url ;;
  match content_type response with
  | PyNone => lift (Raise AttributeError)
  | Str content_type =>
      if startswith content_type "image" then ret (Str url)
      else
        let html := body response in
        lift (let! sources := images_in_html html in list_getitem sources 0)
  end.

Definition download_url_to_directory (url directory : string) : M nat :=
  response <- urlopen url ;;
  let data := body response in
  let firstslash := rfind url "/" in
  let name := slice_from url (firstslash + 1) in
  let outpath := path_join directory name in
  outfile <- open_wb outpath ;;
  written <- file_write outpath data ;;
  ret (length data).

End Script.

(** ** Notions used to state the properties *)

(** The top-level token of a media type, in the words of the
    specification: the segment before the first ['/']. *)
Fixpoint top_level_token (media_type : string) : string :=
  match media_type with
  | EmptyString => EmptyString
  | String c rest =>
      if Ascii.eqb c "/" then EmptyString else String c (top_level_token rest)
  end.

(** [c in s] for a character [c]. *)
Fixpoint str_contains (s : string) (c : ascii) : bool :=
  match s with
  | EmptyString => false
  | String c' rest => Ascii.eqb c' c || str_contains rest c
  end.

Definition is_anchor_event (e : event) : bool :=
  match e with
  | StartTag tag _ => String.eqb tag "a"
  | EndTag tag => String.eqb tag "a"
  | Ignored => false
  end.

Definition is_img_start (e : event) : bool :=
  match e with
  | StartTag tag _ => String.eqb tag "img"
  | _ => false
  end.

(** A document without [img] tags. *)
Definition no_img_tags (evs : list event) : bool :=
  forallb (fun e => negb (is_img_start e)) evs.

(** An anchor element wrapping one image: the attributes of the [a] tag,
    what precedes the [img] tag inside the anchor, the attributes of the
    [img] tag and what follows it up to the closing [</a>]. *)
Record anchor_element : Type := Anchor {
  a_attrs : list (string * pyval);
  a_before : list event;
  a_img_attrs : list (string * pyval);
  a_after : list event
}.

(** The [href] of the anchor, when it has one with a string value. *)
Definition anchor_href (a : anchor_element) : option string :=
  match find_key (a_attrs a) "href" with
  | Str h :: _ => Some h
  | _ => None
  end.

(** Inside the anchor there is no other anchor tag and no other image. *)
Definition inner_events_ok (evs : list event) : bool :=
  forallb (fun e => negb (is_anchor_event e) && negb (is_img_start e)) evs.

Definition anchor_events (a : anchor_element) : list event :=
  StartTag "a" (a_attrs a)
    :: a_before a ++ StartTag "img" (a_img_attrs a) :: a_after a ++ [EndTag "a"].

(** A document whose anchors all wrap one image: a sequence of anchor
    elements and of events outside any anchor. *)
Definition document : Type := list (event + anchor_element).

Definition segment_events (seg : event + anchor_element) : list event :=
  match seg with
  | inl e => [e]
  | inr a => anchor_events a
  end.

Definition document_events (doc : document) : list event :=
  flat_map segment_events doc.

(** Every anchor has an [href] with an image extension and wraps exactly
    one [img]; the anchors are balanced and not nested. *)
Definition segment_ok (seg : event + anchor_element) : bool :=
  match seg with
  | inl e => negb (is_anchor_event e)
  | inr a =>
      match anchor_href a with
      | Some h => has_image_extension h
      | None => false
      end && inner_events_ok (a_before a) && inner_events_ok (a_after a)
  end.

Definition document_ok (doc : document) : bool := forallb segment_ok doc.

Definition segment_hrefs (seg : event + anchor_element) : list pyval :=
  match seg with
  | inl _ => []
  | inr a =>
      match anchor_href a with
      | Some h => [Str h]
      | None => []
      end
  end.

(** The hrefs of the anchors, in document order. *)
Definition document_hrefs (doc : document) : list pyval :=
  flat_map segment_hrefs doc.

Definition count_anchors (doc : document) : nat :=
  length (List.filter (fun seg => match seg with inr _ => true | inl _ => false end) doc).

Definition has_items {P : Type} (p : page P) : bool :=
  match items p with
  | Some _ => true
  | None => false
  end.

(** The concatenation of the [items] arrays of the pages, in page order. *)
Definition concat_items {P : Type} (pages : list (page P)) : list P :=
  flat_map (fun p => match items p with Some l => l | None => [] end) pages.

Section Pagination.

Context {P : Type}.
Variable server : list string -> string -> result response.
Variable decode : list byte -> string.
Variable json_loads : string -> result (page P).
Variables blog_id api_key : string.

(** After [data], the listing continues with the pages [rest]: [data]
    carries the token under which the server returns the next page, and
    so on; the last page carries no token. *)
Fixpoint continues (data : page P) (rest : list (page P)) (w : world) : Prop :=
  match rest with
  | [] => nextPageToken data = None
  | p :: rest' =>
      match nextPageToken data with
      | Some token =>
          let url := posts_page_url blog_id api_key token in
          call_json server decode json_loads url w = (OK p, visit url w)
          /\ continues p rest' (visit url w)
      | None => False
      end
  end.

(** The listing of the blog consists of the page [first] followed by the
    pages [rest]. *)
Definition paginates (first : page P) (rest : list (page P)) (w : world) : Prop :=
  let url := posts_url blog_id api_key in
  call_json server decode json_loads url w = (OK first, visit url w)
  /\ continues first rest (visit url w).

End Pagination.

(** ** Example documents, responses and listings *)

Definition dquote : string := String (ascii_of_nat 34) EmptyString.

Definition quoted (s : string) : string := dquote ++ s ++ dquote.

(** [<a href="http://x/c.gif"><img src="thumb.png"></a>] *)
Definition html_linked_gif : string :=
  "<a href=" ++ quoted "http://x/c.gif" ++ "><img src=" ++ quoted "thumb.png" ++ "></a>".

(** [<a href="http://x/page.html"><img src="thumb.png"></a>] *)
Definition html_linked_page : string :=
  "<a href=" ++ quoted "http://x/page.html" ++ "><img src=" ++ quoted "thumb.png"
    ++ "></a>".

(** [<a name="top"></a>] *)
Definition html_named_anchor : string := "<a name=" ++ quoted "top" ++ "></a>".

(** [</a>] *)
Definition html_stray_close : string := "</a>".

(** [<img alt="logo">] *)
Definition html_img_without_src : string := "<img alt=" ++ quoted "logo" ++ ">".

(** [<html><p>nothing</p></html>] *)
Definition html_without_img : string := "<html><p>nothing</p></html>".

(** [<html><img src="http://x/b.png"></html>] *)
Definition html_embedding_png : string :=
  "<html><img src=" ++ quoted "http://x/b.png" ++ "></html>".

(** The handler calls [HTMLParser.feed] makes on the example documents. *)
Definition example_documents : list (string * list event) :=
  [ (html_linked_gif,
     [StartTag "a" [("href", Str "http://x/c.gif")];
      StartTag "img" [("src", Str "thumb.png")];
      EndTag "a"]);
    (html_linked_page,
     [StartTag "a" [("href", Str "http://x/page.html")];
      StartTag "img" [("src", Str "thumb.png")];
      EndTag "a"]);
    (html_named_anchor, [StartTag "a" [("name", Str "top")]; EndTag "a"]);
    (html_stray_close, [EndTag "a"]);
    (html_img_without_src, [StartTag "img" [("alt", Str "logo")]]);
    (html_without_img,
     [StartTag "html" []; StartTag "p" []; Ignored; EndTag "p"; EndTag "html"]);
    (html_embedding_png,
     [StartTag "html" []; StartTag "img" [("src", Str "http://x/b.png")];
      EndTag "html"]) ].

(** [html_linked_gif] as a document of one anchor wrapping one image. *)
Definition linked_gif_document : document :=
  [inr {| a_attrs := [("href", Str "http://x/c.gif")];
          a_before := [];
          a_img_attrs := [("src", Str "thumb.png")];
          a_after := [] |}].

Definition example_events (html : string) : list event :=
  match find_key example_documents html with
  | evs :: _ => evs
  | [] => []
  end.

(** On ASCII text, decoding keeps every character. *)
Definition ascii_decode (b : list byte) : string := string_of_list_byte b.

(** The text of a posts listing whose posts are given by their content. *)
Definition render_post (content : string) : string :=
  "{" ++ quoted "content" ++ ": " ++ quoted content ++ "}".

Definition render_page (p : page string) : string :=
  "{" ++ quoted "kind" ++ ": " ++ quoted "blogger#postList"
    ++ match nextPageToken p with
       | Some token => ", " ++ quoted "nextPageToken" ++ ": " ++ quoted token
       | None => ""
       end
    ++ match items p with
       | Some posts =>
           ", " ++ quoted "items" ++ ": [" ++ String.concat ", " (map render_post posts)
             ++ "]"
       | None => ""
       end
    ++ "}".

(** A blog of three pages. *)
Definition page_one : page string := Page (Some ["one"; "two"]) (Some "t1").
Definition page_two : page string := Page (Some ["three"]) (Some "t2").
Definition page_three : page string := Page (Some ["four"; "five"]) None.

(** A listing that carries neither posts nor a token. *)
Definition page_without_items : page string := Page None None.

Definition example_pages : list (page string) :=
  [page_one; page_two; page_three; page_without_items].

Definition example_json_loads (text : string) : result (page string) :=
  match find (fun p => String.eqb (render_page p) text) example_pages with
  | Some p => OK p
  | None => Raise ValueError
  end.

Definition json_response (p : page string) : response :=
  {| content_type := Str "application/json; charset=UTF-8";
     body := list_byte_of_string (render_page p) |}.

(** A server that answers a fixed set of URLs: blog 42 has the three pages
    above; blog 7 has a first page whose token leads to a listing without
    [items]. *)
Definition example_site : list (string * response) :=
  [ (posts_url "42" "KEY", json_response page_one);
    (posts_page_url "42" "KEY" "t1", json_response page_two);
    (posts_page_url "42" "KEY" "t2", json_response page_three);
    (posts_url "7" "KEY", json_response page_one);
    (posts_page_url "7" "KEY" "t1", json_response page_without_items);
    ("http://x/a",
     {| content_type := Str "image/jpeg";
        body := list_byte_of_string html_embedding_png |});
    ("http://x/gallery",
     {| content_type := Str "images/png";
        body := list_byte_of_string html_embedding_png |});
    ("http://x/empty",
     {| content_type := Str "text/html";
        body := list_byte_of_string html_without_img |});
    ("data:,hello",
     {| content_type := Str "text/plain;charset=US-ASCII";
        body := list_byte_of_string "hello" |}) ].

Definition example_server (history : list string) (url : string) : result response :=
  match find_key example_site url with
  | r :: _ => OK r
  | [] => Raise URLError
  end.

(** [os.path.join] of [posixpath], on two components. *)
Definition posix_path_join (a b : string) : string :=
  if startswith b "/" then b
  else if String.eqb a "" || endswith a "/" then a ++ b
  else a ++ "/" ++ b.

Definition world0 : world := {| requests := []; files := ∅ |}.

(** ** The crawl: blog lookup, link pipeline and entry point *)

(** The JSON object of the blog lookup, as far as [get_blog_id] reads it:
    the key [id], a string, which may be absent. *)
Record blog_object : Type := BlogObject { id_key : option string }.

(** A post, as far as [linked_image_urls] reads it: the key [content], a
    string of HTML, which may be absent. *)
Record post_object : Type := PostObject { content_key : option string }.

(** A generator whose items are computed without acting on the world: the
    outcomes of its successive [next] calls, up to the end of the sequence
    or to the exception that ends it. *)
Definition generator (A : Type) : Type := list (result A).

(** Iteration over a list. *)
Definition iterate {A : Type} (l : list A) : generator A := map OK l.

(** The generator expression [(f(x) for x in g)]: an exception, raised by
    [g] or by [f], is passed on and ends the generator. *)
Fixpoint generate {A B : Type} (f : A -> result B) (g : generator A) : generator B :=
  match g with
  | [] => []
  | OK x :: g' =>
      match f x with
      | OK y => OK y :: generate f g'
      | Raise e => [Raise e]
      end
  | Raise e :: _ => [Raise e]
  end.

Fixpoint flatten_once {A : Type} (iterable_of_iterables : generator (list A))
  : generator A :=
  match iterable_of_iterables with
  | [] => []
  | OK iterable :: rest => map OK iterable ++ flatten_once rest
  | Raise e :: _ => [Raise e]
  end.

(** [str(v)], as [print] shows the value. *)
Definition str (v : pyval) : string :=
  match v with
  | Str s => s
  | PyNone => "None"
  end.

(** The process running [main]: the world and the lines printed. *)
Record process : Type := Process { world_of : world; stdout : list string }.

Definition IO (A : Type) : Type := process -> result A * process.

Definition io_ret {A : Type} (a : A) : IO A := fun p => (OK a, p).

Definition io_bind {A B : Type} (m : IO A) (k : A -> IO B) : IO B :=
  fun p =>
    match m p with
    | (OK a, p') => k a p'
    | (Raise e, p') => (Raise e, p')
    end.

Notation "x <~ m ;; k" := (io_bind m (fun x => k))
  (at level 100, m at next level, right associativity).

(** A computation on the world, run by the process. *)
Definition in_world {A : Type} (m : M A) : IO A :=
  fun p =>
    match m (world_of p) with
    | (r, w') => (r, {| world_of := w'; stdout := stdout p |})
    end.

Definition print (line : string) : IO unit :=
  fun p => (OK tt, {| world_of := world_of p; stdout := stdout p ++ [line] |}).

(** [for url in image_links: body], where each item of [image_links] is
    obtained by a computation on the world; the first exception, of an
    item or of the body, leaves the loop. *)
Fixpoint for_each (image_links : list (M pyval)) (body : pyval -> IO unit) : IO unit :=
  match image_links with
  | [] => io_ret tt
  | next :: rest =>
      url <~ in_world next ;;
      done <~ body url ;;
      for_each rest body
  end.

Section Crawl.

Variable server : list string -> string -> result response.
Variable decode : list byte -> string.

(** [json.loads] on the text of a blog lookup and of a posts listing. *)
Variable json_loads_blog : string -> result blog_object.
Variable json_loads : string -> result (page post_object).

Variable html_events : string -> list event.
Variable path_join : string -> string -> string.
Variable openable : string -> bool.

(** [os.path.isdir], and whether [os.makedirs] succeeds. *)
Variable isdir : string -> bool.
Variable makedirs : string -> result unit.

(** [prettyprint_size], which formats a floating-point quotient. *)
Variable prettyprint_size : nat -> string.

(** [urlopen] on a value that may be [None]: setting the timeout on
    [None] raises before any request is made. *)
Definition urlopen_value {A : Type} (f : string -> M A) (url : pyval) : M A :=
  match url with
  | Str u => f u
  | PyNone => lift (Raise AttributeError)
  end.

(** [call_json] where the response is a blog lookup. *)
Definition call_json_blog (url : string) : M blog_object :=
  response <- urlopen server url ;;
  let str_response := decode (body response) in
  lift (json_loads_blog str_response).

Definition blog_lookup_url (url api_key : string) : string :=
  API_URL_BASE ++ "/blogs/byurl?url=" ++ url ++ "&key=" ++ api_key.

Definition get_blog_id (url api_key : string) : M string :=
  let url := blog_lookup_url url api_key in
  data <- call_json_blog url ;;
  id_str <- lift (dict_getitem (id_key data)) ;;
  ret id_str.

(** The links of all posts, as [linked_image_urls] chains them. *)
Definition all_links (posts : list post_object) : generator pyval :=
  let contents := generate (fun post => dict_getitem (content_key post)) (iterate posts) in
  let lists_of_links := generate (fun post => find_link_images html_events post) contents in
  flatten_once lists_of_links.

(** [(follow_image_embeds(link) for link in all_links)]: each item is
    resolved when it is asked for. *)
Definition follow_all (links : generator pyval) : list (M pyval) :=
  map (fun item => match item with
                   | OK link =>
                       urlopen_value (follow_image_embeds server decode html_events) link
                   | Raise e => lift (Raise e)
                   end) links.

(** The blog id and the posts are fetched at the call; the generator
    returned is consumed by [main]. As in [get_all_posts], [None] means
    that the bound on the pagination loop was reached. *)
Definition linked_image_urls (fuel : nat) (blog_url api_key : string) (w : world)
  : option (result (list (M pyval)) * world) :=
  match get_blog_id blog_url api_key w with
  | (Raise e, w') => Some (Raise e, w')
  | (OK blog_id, w') =>
      match get_all_posts server decode json_loads fuel blog_id api_key w' with
      | None => None
      | Some (Raise e, w'') => Some (Raise e, w'')
      | Some (OK posts, w'') => Some (OK (follow_all (all_links posts)), w'')
      end
  end.

(** The body of the loop that downloads. *)
Definition download_and_report (destination : string) (url : pyval) : IO unit :=
  size <~ in_world (urlopen_value
                      (fun u => download_url_to_directory server path_join openable
                                  u destination) url) ;;
  print (str url ++ " : " ++ prettyprint_size size).

(** [main], with [sys.argv] as its argument. *)
Definition main (fuel : nat) (argv : list string) (p : process)
  : option (result unit * process) :=
  match (let! blog_url := list_getitem argv 1 in
         let! api_key := list_getitem argv 2 in
         OK (blog_url, api_key)) with
  | Raise e => Some (Raise e, p)
  | OK (blog_url, api_key) =>
      match linked_image_urls fuel blog_url api_key (world_of p) with
      | None => None
      | Some (Raise e, w') => Some (Raise e, {| world_of := w'; stdout := stdout p |})
      | Some (OK image_links, w') =>
          let p' := {| world_of := w'; stdout := stdout p |} in
          if (3 <? length argv)%nat then
            Some ((destination <~ in_world (lift (list_getitem argv 3)) ;;
                   created <~ (if isdir destination then io_ret tt
                               else in_world (lift (makedirs destination))) ;;
                   for_each image_links (download_and_report destination)) p')
          else
            Some (for_each image_links (fun url => print (str url)) p')
      end
  end.

End Crawl.

(** The links of one post: its [content] scanned by [find_link_images]. *)
Definition post_links (html_events : string -> list event) (post : post_object)
  : result (list pyval) :=
  let! content := dict_getitem (content_key post) in
  find_link_images html_events content.

(** [link] resolves to [url], whatever was requested before. *)
Definition resolves_to (server : list string -> string -> result response)
    (decode : list byte -> string) (html_events : string -> list event)
    (link url : pyval) : Prop :=
  forall w : world,
    fst (urlopen_value (follow_image_embeds server decode html_events) link w) = OK url.


(** The requests made since [w]: all of them go to the Blogger API. *)
Definition only_api_requests_since (w w' : world) : Prop :=
  exists new : list string,
    requests w' = new ++ requests w
    /\ Forall (fun url => startswith url API_URL_BASE = true) new.

(** ** Notions used to state further properties of the scanners *)

(** The attribute lists of the [img] start tags, in document order. *)
Definition img_attrs (evs : list event) : list (list (string * pyval)) :=
  flat_map (fun e => match e with
                     | StartTag tag attrs => if String.eqb tag "img" then [attrs] else []
                     | _ => []
                     end) evs.

Definition count_img (evs : list event) : nat := length (img_attrs evs).

(** The tag has a [src] attribute. *)
Definition has_src (attrs : list (string * pyval)) : bool :=
  truthy (find_key attrs "src").

(** The value of the first [src] attribute of each tag that has one. *)
Definition first_srcs (tags : list (list (string * pyval))) : list pyval :=
  flat_map (fun attrs => match find_key attrs "src" with
                         | src0 :: _ => [src0]
                         | [] => []
                         end) tags.

(** The values pushed on the anchor stack: the first [href] of each [a]
    start tag that has one, in document order. *)
Definition pushed_hrefs (evs : list event) : list pyval :=
  flat_map (fun e => match e with
                     | StartTag tag attrs =>
                         if String.eqb tag "a" then
                           match find_key attrs "href" with
                           | href0 :: _ => [href0]
                           | [] => []
                           end
                         else []
                     | _ => []
                     end) evs.

(** The number of [</a>] end tags. *)
Definition count_anchor_closes (evs : list event) : nat :=
  length (List.filter (fun e => match e with
                                | EndTag tag => String.eqb tag "a"
                                | _ => false
                                end) evs).

Definition no_anchor_events (evs : list event) : bool :=
  forallb (fun e => negb (is_anchor_event e)) evs.

(** ** Notions used to state further properties of the paginator *)

(** The URLs [get_all_posts] requests for a listing made of [pages]: the
    first page, then one URL for each token. *)
Definition listing_urls {P : Type} (blog_id api_key : string) (pages : list (page P))
  : list string :=
  posts_url blog_id api_key
    :: flat_map (fun p => match nextPageToken p with
                          | Some token => [posts_page_url blog_id api_key token]
                          | None => []
                          end) pages.

Section PaginationFailure.

Context {P : Type}.
Variable server : list string -> string -> result response.
Variable decode : list byte -> string.
Variable json_loads : string -> result (page P).
Variables blog_id api_key : string.

(** After [data] the listing continues with the pages [rest], the last of
    which carries a token too, and the fetch for that token raises [e]. *)
Fixpoint breaks_after (e : exn) (data : page P) (rest : list (page P)) (w : world)
  {struct rest} : Prop :=
  match nextPageToken data with
  | None => False
  | Some token =>
      let url := posts_page_url blog_id api_key token in
      match rest with
      | [] => call_json server decode json_loads url w = (Raise e, visit url w)
      | p :: rest' =>
          call_json server decode json_loads url w = (OK p, visit url w)
          /\ breaks_after e p rest' (visit url w)
      end
  end.

End PaginationFailure.

(** ** Further example documents and responses *)

(** [<img src="http://x/one.png"><img alt="two">] *)
Definition html_two_images : string :=
  "<img src=" ++ quoted "http://x/one.png" ++ "><img alt=" ++ quoted "two" ++ ">".

Definition more_documents : list (string * list event) :=
  [ (html_two_images,
     [StartTag "img" [("src", Str "http://x/one.png")];
      StartTag "img" [("alt", Str "two")]]) ].

Definition more_events (html : string) : list event :=
  match find_key more_documents html with
  | evs :: _ => evs
  | [] => example_events html
  end.

(** Further URLs: two HTML pages, a response without [Content-Type], blog
    13 whose second page cannot be fetched, blog 5 whose first listing has
    no [items], and two images with the same file name. *)
Definition more_site : list (string * response) :=
  [ ("http://x/page",
     {| content_type := Str "text/html";
        body := list_byte_of_string html_embedding_png |});
    ("http://x/two",
     {| content_type := Str "text/html";
        body := list_byte_of_string html_two_images |});
    ("http://x/bare",
     {| content_type := PyNone;
        body := list_byte_of_string html_embedding_png |});
    (posts_url "13" "KEY", json_response page_one);
    (posts_url "5" "KEY", json_response page_without_items);
    ("http://x/dir/pic.png",
     {| content_type := Str "image/png"; body := list_byte_of_string "PNG1" |});
    ("http://y/other/pic.png",
     {| content_type := Str "image/png"; body := list_byte_of_string "PNG22" |}) ].

Definition more_server (history : list string) (url : string) : result response :=
  match find_key more_site url with
  | r :: _ => OK r
  | [] => example_server history url
  end.

(** A server that answers every request with the same listing, which
    carries a token. *)
Definition endless_server (history : list string) (url : string) : result response :=
  OK (json_response page_one).

(** ** An example blog *)

(** The text of a string inside a JSON document: the double quote is
    written with a backslash. *)
Fixpoint escape_quotes (s : string) : string :=
  match s with
  | EmptyString => EmptyString
  | String c rest =>
      if Ascii.eqb c (ascii_of_nat 34)
      then String (ascii_of_nat 92) (String c (escape_quotes rest))
      else String c (escape_quotes rest)
  end.

Definition render_post_object (post : post_object) : string :=
  match content_key post with
  | Some content => "{" ++ quoted "content" ++ ": " ++ quoted (escape_quotes content) ++ "}"
  | None => "{" ++ quoted "title" ++ ": " ++ quoted "untitled" ++ "}"
  end.

Definition render_listing (p : page post_object) : string :=
  "{" ++ quoted "kind" ++ ": " ++ quoted "blogger#postList"
    ++ match nextPageToken p with
       | Some token => ", " ++ quoted "nextPageToken" ++ ": " ++ quoted token
       | None => ""
       end
    ++ match items p with
       | Some posts =>
           ", " ++ quoted "items" ++ ": ["
             ++ String.concat ", " (map render_post_object posts) ++ "]"
       | None => ""
       end
    ++ "}".

(** Blog 77 has one page with two posts: an image linking to a GIF and an
    image linking to an HTML page that embeds a PNG. Blog 78 has a third
    post whose link cannot be fetched. *)
Definition blog_posts : list post_object :=
  [ {| content_key := Some html_linked_gif |};
    {| content_key := Some html_linked_page |} ].

Definition blog_listing : page post_object :=
  {| items := Some blog_posts; nextPageToken := None |}.

(** [<a href="http://x/gone.png"><img src="thumb.png"></a>] *)
Definition html_linked_gone : string :=
  "<a href=" ++ quoted "http://x/gone.png" ++ "><img src=" ++ quoted "thumb.png"
    ++ "></a>".

Definition broken_blog_posts : list post_object :=
  [ {| content_key := Some html_linked_gif |};
    {| content_key := Some html_linked_gone |};
    {| content_key := Some html_linked_page |} ].

Definition broken_blog_listing : page post_object :=
  {| items := Some broken_blog_posts; nextPageToken := None |}.

Definition blog_text (id : string) : string :=
  "{" ++ quoted "kind" ++ ": " ++ quoted "blogger#blog" ++ ", " ++ quoted "id" ++ ": "
    ++ quoted id ++ "}".

Definition blog_json_loads_blog (text : string) : result blog_object :=
  if String.eqb text (blog_text "77") then OK {| id_key := Some "77" |}
  else if String.eqb text (blog_text "78") then OK {| id_key := Some "78" |}
  else Raise ValueError.

Definition blog_json_loads (text : string) : result (page post_object) :=
  if String.eqb text (render_listing blog_listing) then OK blog_listing
  else if String.eqb text (render_listing broken_blog_listing) then OK broken_blog_listing
  else Raise ValueError.

Definition json_text_response (text : string) : response :=
  {| content_type := Str "application/json; charset=UTF-8";
     body := list_byte_of_string text |}.

Definition blog_site : list (string * response) :=
  [ (blog_lookup_url "http://b.example" "KEY", json_text_response (blog_text "77"));
    (posts_url "77" "KEY", json_text_response (render_listing blog_listing));
    (blog_lookup_url "http://c.example" "KEY", json_text_response (blog_text "78"));
    (posts_url "78" "KEY", json_text_response (render_listing broken_blog_listing));
    ("http://x/c.gif",
     {| content_type := Str "image/gif"; body := list_byte_of_string "GIF89a" |});
    ("http://x/page.html",
     {| content_type := Str "text/html";
        body := list_byte_of_string html_embedding_png |});
    ("http://x/b.png",
     {| content_type := Str "image/png"; body := list_byte_of_string "PNG333" |}) ].

Definition blog_server (history : list string) (url : string) : result response :=
  match find_key blog_site url with
  | r :: _ => OK r
  | [] => Raise URLError
  end.

Definition blog_events (html : string) : list event :=
  if String.eqb html html_linked_gone then
    [StartTag "a" [("href", Str "http://x/gone.png")];
     StartTag "img" [("src", Str "thumb.png")];
     EndTag "a"]
  else example_events html.

Definition process0 : process := {| world_of := world0; stdout := [] |}.

(** ** Facts about the built-ins *)

Lemma substring_all (s : string) : String.substring 0 (String.length s) s = s.
Proof.
  induction s as [|c s IH]; simpl.
  - reflexivity.
  - now rewrite IH.
Qed.

Lemma slice_from_0 (s : string) : slice_from s 0 = s.
Proof.
  unfold slice_from.
  change (0 <? 0)%Z with false. cbv beta iota zeta.
  rewrite Z.min_l by lia.
  change (Z.to_nat 0) with 0%nat.
  rewrite Nat.sub_0_r. apply substring_all.
Qed.

Lemma rfind_aux_absent (s : string) :
  forall i last, str_contains s "/" = false -> rfind_aux "/" s i last = last.
Proof.
  induction s as [|c s IH]; intros i last Habsent.
  - reflexivity.
  - simpl in Habsent. apply orb_false_iff in Habsent as [Hc Hs].
    cbn [rfind_aux String.prefix].
    destruct (ascii_dec "/" c) as [Heq|_].
    + subst c. discriminate Hc.
    + now apply IH.
Qed.

Lemma rfind_absent (s : string) : str_contains s "/" = false -> rfind s "/" = (-1)%Z.
Proof. apply rfind_aux_absent. Qed.

Lemma top_level_token_prefix (p : string) :
  forall media_type, top_level_token media_type = p -> String.prefix p media_type = true.
Proof.
  induction p as [|a p IH]; intros media_type Htoken.
  - now destruct media_type.
  - destruct media_type as [|c rest]; [discriminate|].
    simpl in Htoken. destruct (Ascii.eqb c "/"); [discriminate|].
    injection Htoken as -> Hrest. simpl.
    destruct (ascii_dec a a) as [_|Hne]; [|contradiction].
    now apply IH.
Qed.

Lemma image_token_startswith (media_type : string) :
  top_level_token media_type = "image" -> startswith media_type "image" = true.
Proof. apply top_level_token_prefix. Qed.

(** The value [is_image_filename] returns for a string is a list of four
    booleans, hence true as a condition. *)
Lemma is_image_filename_truthy (s : string) :
  (let! tests := is_image_filename (Str s) in OK (truthy tests)) = OK true.
Proof. reflexivity. Qed.

Lemma feed_events_app {S : Type} `{HTMLParser S} (evs1 evs2 : list event) :
  forall st : S,
    feed_events st (evs1 ++ evs2) = (let! st' := feed_events st evs1 in feed_events st' evs2).
Proof.
  induction evs1 as [|e evs1 IH]; intros st; simpl.
  - reflexivity.
  - destruct (handle_event st e) as [st'|err]; simpl; [apply IH | reflexivity].
Qed.

(** ** The anchor-image scanner *)

(** C1 (the code departs from the claim). The href of an anchor is recorded
    whatever its extension: the condition of [handle_starttag] is the list
    returned by [is_image_filename], which is never empty. On
    [<a href="http://x/page.html"><img src="thumb.png"></a>] the scanner
    returns the href although it ends in none of png, gif, jpg, jpeg. *)
Theorem non_image_href_is_recorded :
  has_image_extension "http://x/page.html" = false
  /\ is_image_filename (Str "http://x/page.html") = OK [false; false; false; false]
  /\ find_link_images example_events html_linked_page = OK [Str "http://x/page.html"]
  /\ (forall (h : string) (img_attrs : list (string * pyval)),
        feed_events ImageLinkSearcher.init
          [StartTag "a" [("href", Str h)]; StartTag "img" img_attrs; EndTag "a"]
        = OK {| ImageLinkSearcher.linkstack := [];
                ImageLinkSearcher.images := [Str h] |}).
Proof.
  split; [reflexivity|]. split; [reflexivity|]. split; [reflexivity|].
  intros h img_attrs. reflexivity.
Qed.

(** C2 (the code departs from the claim). [handle_endtag] pops the anchor
    stack without looking at it: on an empty stack [pop] raises
    [IndexError], which leaves [feed]. This happens on a stray [</a>] and
    also on the balanced [<a name="top"></a>], whose start tag pushes
    nothing. *)
Theorem closing_anchor_on_empty_stack_raises :
  (forall imgs,
      ImageLinkSearcher.endtag
        {| ImageLinkSearcher.linkstack := []; ImageLinkSearcher.images := imgs |} "a"
      = Raise IndexError)
  /\ find_link_images example_events html_stray_close = Raise IndexError
  /\ find_link_images example_events html_named_anchor = Raise IndexError.
Proof. repeat split; vm_compute; reflexivity. Qed.

(** ** The first-image scanner *)

(** C5 (the code departs from the claim). On an [img] tag without a [src]
    attribute [find_key] returns the empty list and [src[0]] raises
    [IndexError]: the event is not ignored, the scan fails. *)
Theorem img_without_src_raises :
  (forall self, ImageSearcher.starttag self "img" [("alt", Str "logo")] = Raise IndexError)
  /\ images_in_html ascii_decode example_events (list_byte_of_string html_img_without_src)
     = Raise IndexError.
Proof. split; [intros self|]; vm_compute; reflexivity. Qed.

Lemma list_getitem_0_cons {A : Type} (x : A) (l : list A) :
  list_getitem (x :: l) 0 = OK x.
Proof.
  unfold list_getitem. change (0 <? 0)%Z with false. cbv beta iota zeta.
  rewrite orb_false_l.
  destruct (Z.leb_spec (Z.of_nat (length (x :: l))) 0) as [Hle|_].
  - simpl length in Hle. lia.
  - reflexivity.
Qed.

(** Tags other than [a] and [img] leave the scanner as it is. *)
Lemma link_searcher_inner_event (st : ImageLinkSearcher.t) (e : event) :
  negb (is_anchor_event e) && negb (is_img_start e) = true ->
  handle_event st e = OK st.
Proof.
  intros Hok. apply andb_true_iff in Hok as [Ha Hi].
  apply negb_true_iff in Ha. apply negb_true_iff in Hi.
  destruct e as [tag attrs|tag|]; simpl in *.
  - unfold ImageLinkSearcher.starttag. rewrite Ha. simpl. now rewrite Hi.
  - unfold ImageLinkSearcher.endtag. now rewrite Ha.
  - reflexivity.
Qed.

Lemma link_searcher_inner_events (evs : list event) :
  forall st : ImageLinkSearcher.t,
    inner_events_ok evs = true -> feed_events st evs = OK st.
Proof.
  induction evs as [|e evs IH]; intros st Hok.
  - reflexivity.
  - simpl in Hok. apply andb_true_iff in Hok as [He Hevs].
    cbn [feed_events]. rewrite (link_searcher_inner_event st e He). simpl.
    now apply IH.
Qed.

(** Outside any anchor the stack is empty and an [img] tag records nothing. *)
Lemma link_searcher_outside_event (imgs : list pyval) (e : event) :
  is_anchor_event e = false ->
  handle_event {| ImageLinkSearcher.linkstack := []; ImageLinkSearcher.images := imgs |} e
  = OK {| ImageLinkSearcher.linkstack := []; ImageLinkSearcher.images := imgs |}.
Proof.
  intros Ha.
  destruct e as [tag attrs|tag|]; simpl in *.
  - unfold ImageLinkSearcher.starttag. rewrite Ha. simpl.
    now destruct (String.eqb tag "img").
  - unfold ImageLinkSearcher.endtag. now rewrite Ha.
  - reflexivity.
Qed.

Lemma link_searcher_push (st : ImageLinkSearcher.t) (attrs : list (string * pyval))
    (href0 : pyval) (rest : list pyval) :
  find_key attrs "href" = href0 :: rest ->
  ImageLinkSearcher.starttag st "a" attrs
  = OK {| ImageLinkSearcher.linkstack := ImageLinkSearcher.linkstack st ++ [href0];
          ImageLinkSearcher.images := ImageLinkSearcher.images st |}.
Proof.
  intros Hfind. unfold ImageLinkSearcher.starttag.
  change (String.eqb "a" "a") with true. cbv iota zeta. rewrite Hfind.
  cbn [truthy]. rewrite list_getitem_0_cons. reflexivity.
Qed.

Lemma link_searcher_img (h : string) (imgs : list pyval) (attrs : list (string * pyval)) :
  ImageLinkSearcher.starttag
    {| ImageLinkSearcher.linkstack := [Str h]; ImageLinkSearcher.images := imgs |}
    "img" attrs
  = OK {| ImageLinkSearcher.linkstack := [Str h];
          ImageLinkSearcher.images := imgs ++ [Str h] |}.
Proof. reflexivity. Qed.

(** An anchor wrapping one image adds its href and leaves the stack empty. *)
Lemma link_searcher_anchor (a : anchor_element) (h : string) (imgs : list pyval) :
  anchor_href a = Some h ->
  inner_events_ok (a_before a) = true ->
  inner_events_ok (a_after a) = true ->
  feed_events {| ImageLinkSearcher.linkstack := []; ImageLinkSearcher.images := imgs |}
    (anchor_events a)
  = OK {| ImageLinkSearcher.linkstack := [];
          ImageLinkSearcher.images := imgs ++ [Str h] |}.
Proof.
  intros Hhref Hbefore Hafter. unfold anchor_href in Hhref.
  destruct (find_key (a_attrs a) "href") as [|[h'|] rest] eqn:Hfind; try discriminate.
  injection Hhref as ->.
  unfold anchor_events.
  cbn [feed_events handle_event handle_starttag ImageLinkSearcher.parser].
  rewrite (link_searcher_push _ _ _ _ Hfind).
  cbn [rbind ImageLinkSearcher.linkstack ImageLinkSearcher.images app].
  rewrite feed_events_app, (link_searcher_inner_events _ _ Hbefore).
  cbn [rbind feed_events handle_event handle_starttag ImageLinkSearcher.parser].
  rewrite link_searcher_img. cbn [rbind].
  rewrite feed_events_app, (link_searcher_inner_events _ _ Hafter).
  reflexivity.
Qed.

Lemma link_searcher_document (doc : document) :
  forall imgs,
    document_ok doc = true ->
    feed_events {| ImageLinkSearcher.linkstack := []; ImageLinkSearcher.images := imgs |}
      (document_events doc)
    = OK {| ImageLinkSearcher.linkstack := [];
            ImageLinkSearcher.images := imgs ++ document_hrefs doc |}.
Proof.
  induction doc as [|seg doc IH]; intros imgs Hok.
  - simpl. now rewrite app_nil_r.
  - simpl in Hok. apply andb_true_iff in Hok as [Hseg Hdoc].
    unfold document_events, document_hrefs. cbn [flat_map].
    fold (document_events doc). fold (document_hrefs doc).
    rewrite feed_events_app.
    destruct seg as [e|a]; simpl in Hseg.
    + apply negb_true_iff in Hseg.
      cbn [segment_events segment_hrefs feed_events].
      rewrite (link_searcher_outside_event imgs e Hseg). simpl.
      now apply IH.
    + apply andb_true_iff in Hseg as [Hseg Hafter].
      apply andb_true_iff in Hseg as [Hhref Hbefore].
      cbn [segment_events segment_hrefs].
      destruct (anchor_href a) as [h|] eqn:Ha; [|discriminate].
      rewrite (link_searcher_anchor a h imgs Ha Hbefore Hafter). simpl rbind.
      rewrite (IH _ Hdoc). now rewrite <- app_assoc.
Qed.

Lemma document_hrefs_length (doc : document) :
  document_ok doc = true -> length (document_hrefs doc) = count_anchors doc.
Proof.
  induction doc as [|seg doc IH]; intros Hok.
  - reflexivity.
  - simpl in Hok. apply andb_true_iff in Hok as [Hseg Hdoc].
    unfold document_hrefs, count_anchors in *. cbn [flat_map List.filter].
    rewrite length_app, (IH Hdoc).
    destruct seg as [e|a]; simpl in *.
    + reflexivity.
    + now destruct (anchor_href a).
Qed.

(** C6. When the parser reports a document made of anchors that each carry
    an href with an image extension and wrap exactly one [img] (with
    anything but anchor tags between them), [find_link_images] returns the
    hrefs of these anchors, one for each anchor, in document order. *)
Theorem linked_images_found_in_document_order :
  forall (html_events : string -> list event) (html : string) (doc : document),
    html_events html = document_events doc ->
    document_ok doc = true ->
    find_link_images html_events html = OK (document_hrefs doc)
    /\ length (document_hrefs doc) = count_anchors doc.
Proof.
  intros html_events html doc Hevents Hok. split.
  - unfold find_link_images, feed, ImageLinkSearcher.init. rewrite Hevents.
    now rewrite (link_searcher_document doc [] Hok).
  - now apply document_hrefs_length.
Qed.

Lemma linked_images_found_in_document_order_witness :
  example_events html_linked_gif = document_events linked_gif_document
  /\ document_ok linked_gif_document = true
  /\ find_link_images example_events html_linked_gif = OK [Str "http://x/c.gif"]
  /\ length [Str "http://x/c.gif"] = 1.
Proof.
  split; [reflexivity|]. split; [reflexivity|].
  exact (linked_images_found_in_document_order example_events html_linked_gif
           linked_gif_document eq_refl eq_refl).
Defined.

(** A document without [img] tags leaves the first-image scanner as it is. *)
Lemma image_searcher_without_img (evs : list event) :
  forall st : ImageSearcher.t, no_img_tags evs = true -> feed_events st evs = OK st.
Proof.
  induction evs as [|e evs IH]; intros st Hno.
  - reflexivity.
  - simpl in Hno. apply andb_true_iff in Hno as [He Hevs].
    apply negb_true_iff in He. cbn [feed_events].
    assert (handle_event st e = OK st) as ->.
    { destruct e as [tag attrs|tag|]; simpl in *; try reflexivity.
      unfold ImageSearcher.starttag. now rewrite He. }
    simpl. now apply IH.
Qed.

Lemma images_in_html_without_img (decode : list byte -> string)
    (html_events : string -> list event) (html : list byte) :
  no_img_tags (html_events (decode html)) = true ->
  images_in_html decode html_events html = OK [].
Proof.
  intros Hno. unfold images_in_html, feed.
  now rewrite (image_searcher_without_img _ ImageSearcher.init Hno).
Qed.

(** ** The link resolver *)

(** C3, as the code has it. The response is classified by a prefix test on
    the [Content-Type] header: when the header starts with [image] the URL
    is returned, otherwise the body is scanned and the first image source
    returned. A media type whose top-level token is [image] passes the
    prefix test. *)
Theorem follow_image_embeds_classifies_by_prefix :
  forall (server : list string -> string -> result response)
         (decode : list byte -> string) (html_events : string -> list event)
         (url : string) (w : world) (r : response) (ct : string),
    server (requests w) url = OK r ->
    content_type r = Str ct ->
    follow_image_embeds server decode html_events url w
    = (if startswith ct "image" then OK (Str url)
       else let! sources := images_in_html decode html_events (body r) in
            list_getitem sources 0,
       visit url w)
    /\ implb (String.eqb (top_level_token ct) "image") (startswith ct "image") = true.
Proof.
  intros server decode html_events url w r ct Hserver Hct. split.
  - unfold follow_image_embeds, bind, urlopen. rewrite Hserver, Hct.
    now destruct (startswith ct "image").
  - destruct (String.eqb_spec (top_level_token ct) "image") as [Htoken|_].
    + now rewrite (image_token_startswith ct Htoken).
    + reflexivity.
Qed.

Lemma follow_image_embeds_classifies_by_prefix_witness :
  example_server (requests world0) "http://x/empty"
  = OK {| content_type := Str "text/html";
          body := list_byte_of_string html_without_img |}
  /\ follow_image_embeds example_server ascii_decode example_events "http://x/empty" world0
     = (let! sources := images_in_html ascii_decode example_events
                          (list_byte_of_string html_without_img) in
        list_getitem sources 0,
        visit "http://x/empty" world0).
Proof.
  split; [reflexivity|].
  exact (proj1 (follow_image_embeds_classifies_by_prefix example_server ascii_decode
                  example_events "http://x/empty" world0 _ "text/html" eq_refl eq_refl)).
Defined.

(** C3, as the claim states it, fails: the media type [images/png] has the
    top-level token [images], yet the response is classified as an image and
    the URL is returned instead of the image source found in the body. *)
Lemma prefix_classification_counterexample :
  String.eqb (top_level_token "images/png") "image" = false
  /\ example_server [] "http://x/gallery"
     = OK {| content_type := Str "images/png";
             body := list_byte_of_string html_embedding_png |}
  /\ images_in_html ascii_decode example_events (list_byte_of_string html_embedding_png)
     = OK [Str "http://x/b.png"]
  /\ fst (follow_image_embeds example_server ascii_decode example_events
            "http://x/gallery" world0)
     = OK (Str "http://x/gallery").
Proof. repeat split; vm_compute; reflexivity. Qed.

(** C7. When the response declares a media type whose top-level token is
    [image], [follow_image_embeds] returns the URL it was given, whatever
    the body is. *)
Theorem image_content_type_returns_url_unchanged :
  forall (server : list string -> string -> result response)
         (decode : list byte -> string) (html_events : string -> list event)
         (url : string) (w : world) (ct : string) (html : list byte),
    server (requests w) url = OK {| content_type := Str ct; body := html |} ->
    top_level_token ct = "image" ->
    follow_image_embeds server decode html_events url w = (OK (Str url), visit url w).
Proof.
  intros server decode html_events url w ct html Hserver Htoken.
  unfold follow_image_embeds, bind, urlopen. rewrite Hserver. cbn [content_type].
  now rewrite (image_token_startswith ct Htoken).
Qed.

Lemma image_content_type_returns_url_unchanged_witness :
  example_server (requests world0) "http://x/a"
  = OK {| content_type := Str "image/jpeg";
          body := list_byte_of_string html_embedding_png |}
  /\ top_level_token "image/jpeg" = "image"
  /\ follow_image_embeds example_server ascii_decode example_events "http://x/a" world0
     = (OK (Str "http://x/a"), visit "http://x/a" world0).
Proof.
  split; [reflexivity|]. split; [reflexivity|].
  exact (image_content_type_returns_url_unchanged example_server ascii_decode
           example_events "http://x/a" world0 "image/jpeg" _ eq_refl eq_refl).
Defined.

(** C8. On a document without [img] tags [images_in_html] returns the empty
    list, and [follow_image_embeds], when the response is not classified as
    an image and has such a body, raises [IndexError]. *)
Theorem no_img_tags_no_image_found :
  forall (server : list string -> string -> result response)
         (decode : list byte -> string) (html_events : string -> list event)
         (url : string) (w : world) (ct : string) (html : list byte),
    no_img_tags (html_events (decode html)) = true ->
    server (requests w) url = OK {| content_type := Str ct; body := html |} ->
    startswith ct "image" = false ->
    images_in_html decode html_events html = OK []
    /\ follow_image_embeds server decode html_events url w
       = (Raise IndexError, visit url w).
Proof.
  intros server decode html_events url w ct html Hno Hserver Hct.
  pose proof (images_in_html_without_img decode html_events html Hno) as Himages.
  split; [exact Himages|].
  unfold follow_image_embeds, bind, urlopen. rewrite Hserver. cbn [content_type body].
  rewrite Hct. unfold lift. now rewrite Himages.
Qed.

Lemma no_img_tags_no_image_found_witness :
  no_img_tags (example_events (ascii_decode (list_byte_of_string html_without_img))) = true
  /\ example_server (requests world0) "http://x/empty"
     = OK {| content_type := Str "text/html";
             body := list_byte_of_string html_without_img |}
  /\ startswith "text/html" "image" = false
  /\ images_in_html ascii_decode example_events (list_byte_of_string html_without_img)
     = OK []
  /\ follow_image_embeds example_server ascii_decode example_events "http://x/empty" world0
     = (Raise IndexError, visit "http://x/empty" world0).
Proof.
  split; [reflexivity|]. split; [reflexivity|]. split; [reflexivity|].
  exact (no_img_tags_no_image_found example_server ascii_decode example_events
           "http://x/empty" world0 "text/html" (list_byte_of_string html_without_img)
           eq_refl eq_refl eq_refl).
Defined.

(** ** The paginator *)

Section PaginationFacts.

Context {P : Type}.
Variable server : list string -> string -> result response.
Variable decode : list byte -> string.
Variable json_loads : string -> result (page P).
Variables blog_id api_key : string.

(** One successful pass through the [try] block. *)
Lemma get_all_posts_try_next (data next : page P) (posts more : list P)
    (token : string) (w : world) :
  nextPageToken data = Some token ->
  call_json server decode json_loads (posts_page_url blog_id api_key token) w
  = (OK next, visit (posts_page_url blog_id api_key token) w) ->
  items next = Some more ->
  get_all_posts_try server decode json_loads blog_id api_key data posts w
  = (OK (next, posts ++ more), visit (posts_page_url blog_id api_key token) w).
Proof.
  intros Htoken Hcall Hitems. unfold get_all_posts_try, bind at 1.
  rewrite Htoken. cbn [lift dict_getitem]. unfold bind at 1. rewrite Hcall.
  unfold bind, lift, ret. now rewrite Hitems.
Qed.

(** A page without a token makes the [try] block raise [KeyError]. *)
Lemma get_all_posts_try_last (data : page P) (posts : list P) (w : world) :
  nextPageToken data = None ->
  get_all_posts_try server decode json_loads blog_id api_key data posts w
  = (Raise KeyError, w).
Proof.
  intros Htoken. unfold get_all_posts_try, bind at 1. now rewrite Htoken.
Qed.

(** A next page without [items] makes the [try] block raise [KeyError]
    as well, after the page was fetched. *)
Lemma get_all_posts_try_no_items (data next : page P) (posts : list P)
    (token : string) (w : world) :
  nextPageToken data = Some token ->
  call_json server decode json_loads (posts_page_url blog_id api_key token) w
  = (OK next, visit (posts_page_url blog_id api_key token) w) ->
  items next = None ->
  get_all_posts_try server decode json_loads blog_id api_key data posts w
  = (Raise KeyError, visit (posts_page_url blog_id api_key token) w).
Proof.
  intros Htoken Hcall Hitems. unfold get_all_posts_try, bind at 1.
  rewrite Htoken. cbn [lift dict_getitem]. unfold bind at 1. rewrite Hcall.
  unfold bind, lift. now rewrite Hitems.
Qed.

(** The loop appends the items of the remaining pages, in order, and stops
    at the page without a token; one unit of fuel per page suffices. *)
Lemma get_all_posts_loop_concat (rest : list (page P)) :
  forall (data : page P) (posts : list P) (w : world) (fuel : nat),
    continues server decode json_loads blog_id api_key data rest w ->
    forallb has_items rest = true ->
    length rest < fuel ->
    option_map fst
      (get_all_posts_loop server decode json_loads fuel blog_id api_key data posts w)
    = Some (OK (posts ++ concat_items rest)).
Proof.
  induction rest as [|p rest IH]; intros data posts w fuel Hcont Hitems Hfuel;
    (destruct fuel as [|fuel]; [simpl in Hfuel; lia|]); cbn [get_all_posts_loop].
  - simpl in Hcont. rewrite (get_all_posts_try_last data posts w Hcont).
    simpl. now rewrite app_nil_r.
  - cbn [continues] in Hcont.
    destruct (nextPageToken data) as [token|] eqn:Htoken; [|contradiction].
    destruct Hcont as [Hcall Hcont].
    cbn [forallb] in Hitems. apply andb_true_iff in Hitems as [Hp Hrest].
    unfold has_items in Hp. destruct (items p) as [more|] eqn:Hmore; [|discriminate].
    rewrite (get_all_posts_try_next data p posts more token w Htoken Hcall Hmore).
    rewrite (IH p (posts ++ more) _ fuel Hcont Hrest) by (simpl in Hfuel; lia).
    unfold concat_items. cbn [flat_map]. rewrite Hmore. now rewrite app_assoc.
Qed.

End PaginationFacts.

(** C9. When the listing of the blog consists of pages that all carry
    [items] and of which all but the last carry a [nextPageToken],
    [get_all_posts] returns the concatenation of their [items] in page
    order; as many loop iterations as there are pages suffice. *)
Theorem get_all_posts_concatenates_pages :
  forall (P : Type) (server : list string -> string -> result response)
         (decode : list byte -> string) (json_loads : string -> result (page P))
         (blog_id api_key : string) (first : page P) (rest : list (page P))
         (w : world) (fuel : nat),
    paginates server decode json_loads blog_id api_key first rest w ->
    forallb has_items (first :: rest) = true ->
    length (first :: rest) <= fuel ->
    option_map fst (get_all_posts server decode json_loads fuel blog_id api_key w)
    = Some (OK (concat_items (first :: rest))).
Proof.
  intros P server decode json_loads blog_id api_key first rest w fuel
    [Hcall Hcont] Hitems Hfuel.
  cbn [forallb] in Hitems. apply andb_true_iff in Hitems as [Hfirst Hrest].
  unfold has_items in Hfirst.
  destruct (items first) as [posts|] eqn:Hposts; [|discriminate].
  unfold get_all_posts, bind at 1. rewrite Hcall.
  unfold bind, lift, ret. rewrite Hposts. cbn [dict_getitem].
  rewrite (get_all_posts_loop_concat server decode json_loads blog_id api_key rest
             first posts _ fuel Hcont Hrest) by (simpl in Hfuel; lia).
  unfold concat_items. cbn [flat_map]. now rewrite Hposts.
Qed.

Lemma get_all_posts_concatenates_pages_witness :
  paginates example_server ascii_decode example_json_loads "42" "KEY"
    page_one [page_two; page_three] world0
  /\ forallb has_items [page_one; page_two; page_three] = true
  /\ length [page_one; page_two; page_three] <= 3
  /\ option_map fst
       (get_all_posts example_server ascii_decode example_json_loads 3 "42" "KEY" world0)
     = Some (OK ["one"; "two"; "three"; "four"; "five"]).
Proof.
  assert (Hpages : paginates example_server ascii_decode example_json_loads "42" "KEY"
                     page_one [page_two; page_three] world0).
  { repeat split; vm_compute; reflexivity. }
  split; [exact Hpages|]. split; [reflexivity|]. split; [apply le_n|].
  exact (get_all_posts_concatenates_pages string example_server ascii_decode
           example_json_loads "42" "KEY" page_one [page_two; page_three] world0 3
           Hpages eq_refl (le_n 3)).
Defined.

(** C4 (the code departs from the claim). When a page fetched through a
    [nextPageToken] lacks [items], the [KeyError] is caught by the handler
    meant for the missing token: the loop ends and [get_all_posts] returns
    the posts gathered so far as if the listing were complete. *)
Theorem later_page_without_items_is_not_an_error :
  forall (P : Type) (server : list string -> string -> result response)
         (decode : list byte -> string) (json_loads : string -> result (page P))
         (blog_id api_key : string) (posts : list P) (token : string)
         (next : page P) (w : world) (fuel : nat),
    call_json server decode json_loads (posts_url blog_id api_key) w
    = (OK (Page (Some posts) (Some token)), visit (posts_url blog_id api_key) w) ->
    call_json server decode json_loads (posts_page_url blog_id api_key token)
      (visit (posts_url blog_id api_key) w)
    = (OK next,
       visit (posts_page_url blog_id api_key token) (visit (posts_url blog_id api_key) w)) ->
    items next = None ->
    option_map fst (get_all_posts server decode json_loads (S fuel) blog_id api_key w)
    = Some (OK posts).
Proof.
  intros P server decode json_loads blog_id api_key posts token next w fuel
    Hfirst Hnext Hitems.
  unfold get_all_posts, bind at 1. rewrite Hfirst.
  unfold bind, lift, ret. cbn [items dict_getitem get_all_posts_loop].
  now rewrite (get_all_posts_try_no_items server decode json_loads blog_id api_key
                 (Page (Some posts) (Some token)) next posts token _ eq_refl Hnext Hitems).
Qed.

Lemma later_page_without_items_is_not_an_error_witness :
  call_json example_server ascii_decode example_json_loads (posts_url "7" "KEY") world0
  = (OK (Page (Some ["one"; "two"]) (Some "t1")), visit (posts_url "7" "KEY") world0)
  /\ call_json example_server ascii_decode example_json_loads
       (posts_page_url "7" "KEY" "t1") (visit (posts_url "7" "KEY") world0)
     = (OK page_without_items,
        visit (posts_page_url "7" "KEY" "t1") (visit (posts_url "7" "KEY") world0))
  /\ items page_without_items = None
  /\ option_map fst
       (get_all_posts example_server ascii_decode example_json_loads 1 "7" "KEY" world0)
     = Some (OK ["one"; "two"]).
Proof.
  assert (Hfirst :
    call_json example_server ascii_decode example_json_loads (posts_url "7" "KEY") world0
    = (OK (Page (Some ["one"; "two"]) (Some "t1")), visit (posts_url "7" "KEY") world0))
    by (vm_compute; reflexivity).
  assert (Hnext :
    call_json example_server ascii_decode example_json_loads
      (posts_page_url "7" "KEY" "t1") (visit (posts_url "7" "KEY") world0)
    = (OK page_without_items,
       visit (posts_page_url "7" "KEY" "t1") (visit (posts_url "7" "KEY") world0)))
    by (vm_compute; reflexivity).
  split; [exact Hfirst|]. split; [exact Hnext|]. split; [reflexivity|].
  exact (later_page_without_items_is_not_an_error string example_server ascii_decode
           example_json_loads "7" "KEY" ["one"; "two"] "t1" page_without_items world0 0
           Hfirst Hnext eq_refl).
Defined.

(** X16. A first page without [items] is an error: the [KeyError] is
    raised outside the [try] block and leaves [get_all_posts]. *)
Lemma first_page_without_items_raises
    (P : Type) (server : list string -> string -> result response)
    (decode : list byte -> string) (json_loads : string -> result (page P))
    (blog_id api_key : string) (first : page P) (w : world) (fuel : nat) :
  call_json server decode json_loads (posts_url blog_id api_key) w
  = (OK first, visit (posts_url blog_id api_key) w) ->
  items first = None ->
  option_map fst (get_all_posts server decode json_loads fuel blog_id api_key w)
  = Some (Raise KeyError).
Proof.
  intros Hfirst Hitems. unfold get_all_posts, bind at 1. rewrite Hfirst.
  unfold bind, lift. rewrite Hitems. reflexivity.
Qed.

(** ** The downloader *)

(** C10. For a URL without ['/'] the search for the last ['/'] gives [-1],
    the name is the whole URL, the body of the response is written to the
    directory joined with that name, and the length of the body is
    returned (when the fetch and the opening of the file succeed). *)
Theorem download_names_file_after_whole_url :
  forall (server : list string -> string -> result response)
         (path_join : string -> string -> string) (openable : string -> bool)
         (url directory : string) (w : world) (r : response),
    str_contains url "/" = false ->
    server (requests w) url = OK r ->
    openable (path_join directory url) = true ->
    rfind url "/" = (-1)%Z
    /\ slice_from url (rfind url "/" + 1) = url
    /\ download_url_to_directory server path_join openable url directory w
       = (OK (length (body r)),
          {| requests := url :: requests w;
             files := <[path_join directory url := body r]> (files w) |}).
Proof.
  intros server path_join openable url directory w r Hslash Hserver Hopen.
  pose proof (rfind_absent url Hslash) as Hrfind.
  split; [exact Hrfind|].
  rewrite Hrfind. change (-1 + 1)%Z with 0%Z. rewrite slice_from_0.
  split; [reflexivity|].
  unfold download_url_to_directory, bind, urlopen, open_wb, file_write, ret.
  rewrite Hserver, Hrfind. change (-1 + 1)%Z with 0%Z. rewrite slice_from_0, Hopen.
  cbn [requests files visit]. now rewrite insert_insert_eq.
Qed.

Lemma download_names_file_after_whole_url_witness :
  str_contains "data:,hello" "/" = false
  /\ example_server (requests world0) "data:,hello"
     = OK {| content_type := Str "text/plain;charset=US-ASCII";
             body := list_byte_of_string "hello" |}
  /\ posix_path_join "out" "data:,hello" = "out/data:,hello"
  /\ download_url_to_directory example_server posix_path_join (fun _ => true)
       "data:,hello" "out" world0
     = (OK 5,
        {| requests := ["data:,hello"];
           files := <["out/data:,hello" := list_byte_of_string "hello"]> ∅ |}).
Proof.
  split; [reflexivity|]. split; [reflexivity|]. split; [reflexivity|].
  exact (proj2 (proj2 (download_names_file_after_whole_url example_server posix_path_join
                         (fun _ => true) "data:,hello" "out" world0 _
                         eq_refl eq_refl eq_refl))).
Defined.

(** ** Further properties of the utilities *)

Lemma string_length_append (p s : string) :
  String.length (p ++ s)%string = String.length p + String.length s.
Proof.
  induction p as [|c p IH]; simpl.
  - reflexivity.
  - now rewrite IH.
Qed.

Lemma substring_skip (p s : string) (m : nat) :
  String.substring (String.length p) m (p ++ s)%string = String.substring 0 m s.
Proof.
  induction p as [|c p IH]; simpl.
  - reflexivity.
  - exact IH.
Qed.




(** X2. [find_key] returns the values paired with the key and nothing
    else, and keeps the order of the list. *)
Theorem find_key_values :
  forall (V : Type) (l1 l2 : list (string * V)) (search : string) (v : V),
    (In v (find_key (l1 ++ l2) search) <-> In (search, v) l1 \/ In (search, v) l2)
    /\ find_key (l1 ++ l2) search = find_key l1 search ++ find_key l2 search.
Proof.
  intros V l1 l2 search v.
  assert (Happ : forall a b : list (string * V),
             find_key (a ++ b) search = find_key a search ++ find_key b search).
  { intros a b. induction a as [|[key value] a IH]; simpl.
    - reflexivity.
    - destruct (String.eqb key search); simpl; now rewrite IH. }
  assert (Hin : forall a : list (string * V),
             In v (find_key a search) <-> In (search, v) a).
  { induction a as [|[key value] a IH]; simpl.
    - tauto.
    - destruct (String.eqb_spec key search) as [->|Hne]; simpl; rewrite IH.
      + split; intros [H|H]; auto; left; congruence.
      + split; [auto|]. intros [H|H]; [|exact H]. congruence. }
  split; [|apply Happ].
  rewrite Happ, in_app_iff, !Hin. tauto.
Qed.

(** X3. The first element of the result, which the scanners use, is the
    value of the first pair with the key: the list splits into pairs with
    other keys, that pair, and a rest. *)
Theorem find_key_first :
  forall (V : Type) (l : list (string * V)) (search : string) (v : V) (rest : list V),
    find_key l search = v :: rest ->
    exists l1 l2,
      l = l1 ++ (search, v) :: l2
      /\ find_key l1 search = []
      /\ find_key l2 search = rest.
Proof.
  intros V l search v rest. induction l as [|[key value] l IH]; simpl; intros Hfind.
  - discriminate.
  - destruct (String.eqb_spec key search) as [->|Hne].
    + injection Hfind as -> <-. now exists [], l.
    + destruct (IH Hfind) as [l1 [l2 [-> [H1 H2]]]].
      exists ((key, value) :: l1), l2. repeat split; [|exact H2].
      simpl. apply String.eqb_neq in Hne. now rewrite Hne.
Qed.

Lemma find_key_first_witness :
  find_key [("alt", Str "x"); ("href", Str "u1"); ("href", Str "u2")] "href"
  = [Str "u1"; Str "u2"]
  /\ exists l1 l2,
       [("alt", Str "x"); ("href", Str "u1"); ("href", Str "u2")]
       = l1 ++ ("href", Str "u1") :: l2
       /\ find_key l1 "href" = []
       /\ find_key l2 "href" = [Str "u2"].
Proof.
  split; [reflexivity|].
  exact (find_key_first pyval [("alt", Str "x"); ("href", Str "u1"); ("href", Str "u2")]
           "href" (Str "u1") [Str "u2"] eq_refl).
Defined.

(** ** Further properties of the first-image scanner *)

(** The scan either fails at the first [img] without [src] or collects the
    first [src] of every [img]. *)
Lemma image_searcher_scan (evs : list event) :
  forall acc : list pyval,
    feed_events {| ImageSearcher.image_sources := acc |} evs
    = if forallb has_src (img_attrs evs)
      then OK {| ImageSearcher.image_sources := acc ++ first_srcs (img_attrs evs) |}
      else Raise IndexError.
Proof.
  induction evs as [|e evs IH]; intros acc.
  - simpl. now rewrite app_nil_r.
  - destruct e as [tag attrs|tag|];
      cbn [feed_events handle_event handle_starttag handle_endtag ImageSearcher.parser].
    + unfold ImageSearcher.starttag, img_attrs. cbn [flat_map].
      fold (img_attrs evs).
      destruct (String.eqb tag "img").
      * cbn [app forallb first_srcs flat_map]. fold (first_srcs (img_attrs evs)).
        unfold has_src at 1.
        destruct (find_key attrs "src") as [|src0 others].
        -- reflexivity.
        -- rewrite list_getitem_0_cons. cbn [rbind truthy andb ImageSearcher.image_sources].
           rewrite IH. now rewrite <- app_assoc.
      * cbn [rbind app]. apply IH.
    + cbn [rbind]. apply IH.
    + cbn [rbind]. apply IH.
Qed.

Lemma first_srcs_length (tags : list (list (string * pyval))) :
  forallb has_src tags = true -> length (first_srcs tags) = length tags.
Proof.
  induction tags as [|attrs tags IH]; intros Hall.
  - reflexivity.
  - cbn [forallb] in Hall. apply andb_true_iff in Hall as [Hsrc Hall].
    unfold first_srcs. cbn [flat_map]. fold (first_srcs tags).
    unfold has_src in Hsrc.
    destruct (find_key attrs "src"); [discriminate|].
    simpl. now rewrite IH.
Qed.

(** X4. [images_in_html] is all or nothing: when every [img] tag of the
    document has a [src] attribute it returns the first [src] of each tag,
    one per tag and in document order; when some [img] tag has none, the
    whole scan raises [IndexError], whatever the other tags carry. *)
Theorem images_in_html_all_or_nothing :
  forall (decode : list byte -> string) (html_events : string -> list event)
         (html : list byte),
    let tags := img_attrs (html_events (decode html)) in
    if forallb has_src tags
    then images_in_html decode html_events html = OK (first_srcs tags)
         /\ length (first_srcs tags) = length tags
    else images_in_html decode html_events html = Raise IndexError.
Proof.
  intros decode html_events html tags.
  unfold images_in_html, feed, ImageSearcher.init. rewrite image_searcher_scan.
  fold tags. destruct (forallb has_src tags) eqn:Hall.
  - split; [reflexivity|]. now apply first_srcs_length.
  - reflexivity.
Qed.

(** ** Further properties of the link resolver *)

(** X5. For a response that is not classified as an image, the result is
    the first [src] of the first [img] tag of the page, provided every
    [img] tag of the page has a [src]. *)
Theorem follow_image_embeds_first_image :
  forall (server : list string -> string -> result response)
         (decode : list byte -> string) (html_events : string -> list event)
         (url : string) (w : world) (ct : string) (html : list byte)
         (attrs0 : list (string * pyval)) (more : list (list (string * pyval)))
         (src0 : pyval) (others : list pyval),
    server (requests w) url = OK {| content_type := Str ct; body := html |} ->
    startswith ct "image" = false ->
    img_attrs (html_events (decode html)) = attrs0 :: more ->
    forallb has_src more = true ->
    find_key attrs0 "src" = src0 :: others ->
    follow_image_embeds server decode html_events url w = (OK src0, visit url w).
Proof.
  intros server decode html_events url w ct html attrs0 more src0 others
    Hserver Hct Htags Hmore Hsrc.
  unfold follow_image_embeds, bind, urlopen. rewrite Hserver. cbn [content_type body].
  rewrite Hct. unfold lift, images_in_html, feed, ImageSearcher.init.
  rewrite image_searcher_scan, Htags.
  cbn [forallb first_srcs flat_map]. unfold has_src at 1. rewrite Hsrc, Hmore.
  cbn [truthy andb rbind ImageSearcher.image_sources app].
  now rewrite list_getitem_0_cons.
Qed.

Lemma follow_image_embeds_first_image_witness :
  more_server (requests world0) "http://x/page"
  = OK {| content_type := Str "text/html";
          body := list_byte_of_string html_embedding_png |}
  /\ startswith "text/html" "image" = false
  /\ img_attrs (more_events (ascii_decode (list_byte_of_string html_embedding_png)))
     = [[("src", Str "http://x/b.png")]]
  /\ follow_image_embeds more_server ascii_decode more_events "http://x/page" world0
     = (OK (Str "http://x/b.png"), visit "http://x/page" world0).
Proof.
  split; [reflexivity|]. split; [reflexivity|]. split; [reflexivity|].
  exact (follow_image_embeds_first_image more_server ascii_decode more_events
           "http://x/page" world0 "text/html" (list_byte_of_string html_embedding_png)
           [("src", Str "http://x/b.png")] [] (Str "http://x/b.png") []
           eq_refl eq_refl eq_refl eq_refl eq_refl).
Defined.

(** X6. For a response that is not classified as an image, one [img] tag
    without [src] anywhere in the page makes the resolution raise
    [IndexError], also when the first [img] tag has a [src]. *)
Theorem follow_image_embeds_fails_on_any_img_without_src :
  forall (server : list string -> string -> result response)
         (decode : list byte -> string) (html_events : string -> list event)
         (url : string) (w : world) (ct : string) (html : list byte),
    server (requests w) url = OK {| content_type := Str ct; body := html |} ->
    startswith ct "image" = false ->
    forallb has_src (img_attrs (html_events (decode html))) = false ->
    follow_image_embeds server decode html_events url w = (Raise IndexError, visit url w).
Proof.
  intros server decode html_events url w ct html Hserver Hct Hsome.
  unfold follow_image_embeds, bind, urlopen. rewrite Hserver. cbn [content_type body].
  rewrite Hct. unfold lift, images_in_html, feed, ImageSearcher.init.
  now rewrite image_searcher_scan, Hsome.
Qed.

Lemma follow_image_embeds_fails_on_any_img_without_src_witness :
  more_server (requests world0) "http://x/two"
  = OK {| content_type := Str "text/html";
          body := list_byte_of_string html_two_images |}
  /\ startswith "text/html" "image" = false
  /\ img_attrs (more_events (ascii_decode (list_byte_of_string html_two_images)))
     = [[("src", Str "http://x/one.png")]; [("alt", Str "two")]]
  /\ follow_image_embeds more_server ascii_decode more_events "http://x/two" world0
     = (Raise IndexError, visit "http://x/two" world0).
Proof.
  split; [reflexivity|]. split; [reflexivity|]. split; [reflexivity|].
  exact (follow_image_embeds_fails_on_any_img_without_src more_server ascii_decode
           more_events "http://x/two" world0 "text/html"
           (list_byte_of_string html_two_images) eq_refl eq_refl eq_refl).
Defined.

(** X7. Whatever the server answers, [follow_image_embeds] makes exactly
    one request, for the URL it was given, and writes no file: the image
    source found in an HTML page is returned without being fetched. *)
Theorem follow_image_embeds_single_request :
  forall (server : list string -> string -> result response)
         (decode : list byte -> string) (html_events : string -> list event)
         (url : string) (w : world),
    snd (follow_image_embeds server decode html_events url w)
    = {| requests := url :: requests w; files := files w |}.
Proof.
  intros server decode html_events url w.
  unfold follow_image_embeds, bind, urlopen.
  destruct (server (requests w) url) as [[[ct|] html]|e]; cbn [content_type body].
  - now destruct (startswith ct "image").
  - reflexivity.
  - reflexivity.
Qed.

(** X8. A response without a [Content-Type] header makes the resolution
    raise [AttributeError]; the body is not scanned. *)
Theorem follow_image_embeds_without_content_type :
  forall (server : list string -> string -> result response)
         (decode : list byte -> string) (html_events : string -> list event)
         (url : string) (w : world) (html : list byte),
    server (requests w) url = OK {| content_type := PyNone; body := html |} ->
    follow_image_embeds server decode html_events url w
    = (Raise AttributeError, visit url w).
Proof.
  intros server decode html_events url w html Hserver.
  unfold follow_image_embeds, bind, urlopen. now rewrite Hserver.
Qed.

Lemma follow_image_embeds_without_content_type_witness :
  more_server (requests world0) "http://x/bare"
  = OK {| content_type := PyNone; body := list_byte_of_string html_embedding_png |}
  /\ follow_image_embeds more_server ascii_decode more_events "http://x/bare" world0
     = (Raise AttributeError, visit "http://x/bare" world0).
Proof.
  split; [reflexivity|].
  exact (follow_image_embeds_without_content_type more_server ascii_decode more_events
           "http://x/bare" world0 (list_byte_of_string html_embedding_png) eq_refl).
Defined.

(** ** Further properties of the anchor-image scanner *)

Lemma list_getitem_last {A : Type} (l : list A) (x : A) :
  list_getitem (l ++ [x]) (-1) = OK x.
Proof.
  unfold list_getitem. change (-1 <? 0)%Z with true. cbv beta iota zeta.
  rewrite length_app. cbn [length].
  replace (-1 + Z.of_nat (length l + 1))%Z with (Z.of_nat (length l)) by lia.
  destruct (Z.ltb_spec (Z.of_nat (length l)) 0) as [Hneg|_]; [lia|].
  destruct (Z.leb_spec (Z.of_nat (length l + 1)) (Z.of_nat (length l))) as [Hle|_]; [lia|].
  cbn [orb]. rewrite Nat2Z.id, nth_error_app2 by lia.
  now rewrite Nat.sub_diag.
Qed.

Lemma list_getitem_minus1 {A : Type} (l : list A) :
  list_getitem l (-1) = match last l with
                        | Some x => OK x
                        | None => Raise IndexError
                        end.
Proof.
  destruct (last l) as [x|] eqn:Hlast.
  - apply last_Some in Hlast as [l' ->]. apply list_getitem_last.
  - apply last_None in Hlast. now subst l.
Qed.

Lemma list_pop_snoc {A : Type} (l : list A) (x : A) : list_pop (l ++ [x]) = OK (x, l).
Proof. unfold list_pop. now rewrite last_snoc, removelast_last. Qed.

(** What one event does to the scanner: the stack grows by the href pushed
    and shrinks by the entry popped, and at most one entry of the stack is
    appended to the images, at an [img] tag. *)
Lemma link_searcher_step (st st' : ImageLinkSearcher.t) (e : event) :
  handle_event st e = OK st' ->
  (exists popped,
      ImageLinkSearcher.linkstack st ++ pushed_hrefs [e]
      = ImageLinkSearcher.linkstack st' ++ popped
      /\ length popped = count_anchor_closes [e])
  /\ (ImageLinkSearcher.images st' = ImageLinkSearcher.images st
      \/ (is_img_start e = true
          /\ exists h, In (Str h) (ImageLinkSearcher.linkstack st)
                       /\ ImageLinkSearcher.images st'
                          = ImageLinkSearcher.images st ++ [Str h])).
Proof.
  destruct st as [stack imgs].
  destruct e as [tag attrs|tag|];
    cbn [handle_event handle_starttag handle_endtag ImageLinkSearcher.parser
         ImageLinkSearcher.linkstack ImageLinkSearcher.images];
    intros Hstep.
  - unfold ImageLinkSearcher.starttag in Hstep.
    unfold pushed_hrefs, count_anchor_closes. cbn [flat_map List.filter length is_img_start].
    destruct (String.eqb_spec tag "a") as [->|Hna].
    + change (String.eqb "a" "img") with false in *.
      cbn [ImageLinkSearcher.linkstack ImageLinkSearcher.images] in Hstep.
      destruct (find_key attrs "href") as [|href0 others].
      * cbn in Hstep. injection Hstep as <-. cbn. split; [|now left].
        exists []. now rewrite !app_nil_r.
      * cbn [truthy] in Hstep. rewrite list_getitem_0_cons in Hstep.
        cbn in Hstep. injection Hstep as <-. cbn. split; [|now left].
        exists []. now rewrite !app_nil_r.
    + cbn [rbind ImageLinkSearcher.linkstack ImageLinkSearcher.images] in Hstep.
      split.
      * exists []. cbn [app length]. rewrite !app_nil_r. split; [|reflexivity].
        destruct (String.eqb tag "img"); [|now injection Hstep as <-].
        destruct (truthy stack); [|now injection Hstep as <-].
        destruct (list_getitem stack (-1)) as [[h|]|err]; cbn in Hstep;
          try discriminate.
        now injection Hstep as <-.
      * destruct (String.eqb tag "img"); [|left; now injection Hstep as <-].
        destruct (truthy stack); [|left; now injection Hstep as <-].
        rewrite list_getitem_minus1 in Hstep.
        destruct (last stack) as [[h|]|] eqn:Hlast; cbn in Hstep; try discriminate.
        injection Hstep as <-. right. split; [reflexivity|]. exists h.
        split; [|reflexivity].
        apply last_Some in Hlast as [stack' ->]. apply in_app_iff. right. now left.
  - unfold ImageLinkSearcher.endtag in Hstep.
    unfold pushed_hrefs, count_anchor_closes. cbn [flat_map List.filter].
    cbn [ImageLinkSearcher.linkstack ImageLinkSearcher.images] in Hstep.
    destruct (String.eqb tag "a").
    + unfold list_pop in Hstep.
      destruct (last stack) as [x|] eqn:Hlast; cbn in Hstep; [|discriminate].
      injection Hstep as <-. cbn. split; [|now left].
      apply last_Some in Hlast as [stack' ->].
      exists [x]. rewrite removelast_last, app_nil_r. now split.
    + injection Hstep as <-. cbn. split; [|now left].
      exists []. now rewrite !app_nil_r.
  - injection Hstep as <-. cbn. split; [|now left].
    exists []. now rewrite !app_nil_r.
Qed.

Lemma truthy_snoc {A : Type} (l : list A) (x : A) : truthy (l ++ [x]) = true.
Proof. now destruct l. Qed.

Lemma count_anchor_closes_cons (e : event) (evs : list event) :
  count_anchor_closes (e :: evs) = count_anchor_closes [e] + count_anchor_closes evs.
Proof.
  unfold count_anchor_closes. cbn [List.filter].
  now destruct (match e with EndTag tag => String.eqb tag "a" | _ => false end).
Qed.

Lemma count_img_cons (e : event) (evs : list event) :
  count_img (e :: evs) = (if is_img_start e then 1 else 0) + count_img evs.
Proof.
  unfold count_img, img_attrs. cbn [flat_map]. rewrite length_app.
  destruct e as [tag attrs|tag|]; cbn [is_img_start]; try reflexivity.
  now destruct (String.eqb tag "img").
Qed.

Lemma pushed_hrefs_cons (e : event) (evs : list event) :
  pushed_hrefs (e :: evs) = pushed_hrefs [e] ++ pushed_hrefs evs.
Proof. unfold pushed_hrefs. cbn [flat_map]. now rewrite app_nil_r. Qed.

(** X9. The depth of the anchor stack is accounted for by the tags seen:
    after a scan that does not fail, the depth plus the number of [</a>]
    tags equals the initial depth plus the number of [a] start tags that
    carry an [href]. *)
Theorem anchor_stack_depth :
  forall (evs : list event) (st st' : ImageLinkSearcher.t),
    feed_events st evs = OK st' ->
    length (ImageLinkSearcher.linkstack st') + count_anchor_closes evs
    = length (ImageLinkSearcher.linkstack st) + length (pushed_hrefs evs).
Proof.
  induction evs as [|e evs IH]; intros st st' Hfeed.
  - injection Hfeed as <-. reflexivity.
  - cbn [feed_events] in Hfeed.
    destruct (handle_event st e) as [st1|err] eqn:Hstep; [|discriminate].
    cbn [rbind] in Hfeed.
    destruct (link_searcher_step st st1 e Hstep) as [[popped [Hstack Hpopped]] _].
    apply (f_equal (@length pyval)) in Hstack. rewrite !length_app in Hstack.
    specialize (IH st1 st' Hfeed).
    rewrite count_anchor_closes_cons.
    rewrite pushed_hrefs_cons.
    rewrite length_app. lia.
Qed.

Lemma anchor_stack_depth_witness :
  feed_events ImageLinkSearcher.init
    [StartTag "a" [("href", Str "u1")]; StartTag "a" [("name", Str "n")];
     StartTag "a" [("href", Str "u2")]; EndTag "a"]
  = OK {| ImageLinkSearcher.linkstack := [Str "u1"]; ImageLinkSearcher.images := [] |}
  /\ 1 + 1 = 0 + 2.
Proof.
  split; [reflexivity|].
  exact (anchor_stack_depth
           [StartTag "a" [("href", Str "u1")]; StartTag "a" [("name", Str "n")];
            StartTag "a" [("href", Str "u2")]; EndTag "a"]
           ImageLinkSearcher.init
           {| ImageLinkSearcher.linkstack := [Str "u1"]; ImageLinkSearcher.images := [] |}
           eq_refl).
Defined.

(** Where the entries of the stack and of the images come from. *)
Lemma link_searcher_sources (evs : list event) :
  forall st st' : ImageLinkSearcher.t,
    feed_events st evs = OK st' ->
    (forall v, In v (ImageLinkSearcher.linkstack st') ->
               In v (ImageLinkSearcher.linkstack st) \/ In v (pushed_hrefs evs))
    /\ exists added,
         ImageLinkSearcher.images st' = ImageLinkSearcher.images st ++ added
         /\ length added <= count_img evs
         /\ forall v, In v added ->
              exists h, v = Str h
                        /\ (In v (ImageLinkSearcher.linkstack st)
                            \/ In v (pushed_hrefs evs)).
Proof.
  induction evs as [|e evs IH]; intros st st' Hfeed.
  - injection Hfeed as <-. split; [auto|].
    exists []. rewrite app_nil_r. repeat split; [apply le_0_n|]. intros v [].
  - cbn [feed_events] in Hfeed.
    destruct (handle_event st e) as [st1|err] eqn:Hstep; [|discriminate].
    cbn [rbind] in Hfeed.
    destruct (link_searcher_step st st1 e Hstep) as [[popped [Hstack _]] Himages].
    destruct (IH st1 st' Hfeed) as [IHstack [added [IHimages [IHlen IHfrom]]]].
    rewrite pushed_hrefs_cons.
    assert (Hst1 : forall v, In v (ImageLinkSearcher.linkstack st1) ->
                     In v (ImageLinkSearcher.linkstack st) \/ In v (pushed_hrefs [e])).
    { intros v Hv. apply in_app_iff. rewrite Hstack. apply in_app_iff. now left. }
    assert (Hfrom : forall v,
               In v (ImageLinkSearcher.linkstack st1) \/ In v (pushed_hrefs evs) ->
               In v (ImageLinkSearcher.linkstack st)
               \/ In v (pushed_hrefs [e] ++ pushed_hrefs evs)).
    { intros v [Hv|Hv]; rewrite in_app_iff; [|auto].
      destruct (Hst1 v Hv); auto. }
    split; [intros v Hv; apply Hfrom; now apply IHstack|].
    rewrite count_img_cons.
    destruct Himages as [Hsame|[Himg [h [Hh Hadd]]]].
    + exists added. rewrite IHimages, Hsame. repeat split; [lia|].
      intros v Hv. destruct (IHfrom v Hv) as [h [-> Hh]]. exists h. split; auto.
    + exists (Str h :: added). rewrite IHimages, Hadd, <- app_assoc, Himg.
      repeat split; [simpl; lia|].
      intros v [<-|Hv].
      * exists h. auto.
      * destruct (IHfrom v Hv) as [h' [-> Hh']]. exists h'. split; auto.
Qed.

(** X10. Everything [find_link_images] returns is a string that is the
    first [href] of some [a] start tag of the document ([None] is never
    returned), and there are at most as many results as [img] tags. *)
Theorem find_link_images_returns_hrefs :
  forall (html_events : string -> list event) (html : string) (links : list pyval),
    find_link_images html_events html = OK links ->
    (forall v, In v links ->
               exists h, v = Str h /\ In (Str h) (pushed_hrefs (html_events html)))
    /\ length links <= count_img (html_events html).
Proof.
  intros html_events html links Hfind. unfold find_link_images, feed in Hfind.
  destruct (feed_events ImageLinkSearcher.init (html_events html)) as [st'|err] eqn:Hfeed;
    [|discriminate].
  cbn [rbind] in Hfind. injection Hfind as <-.
  destruct (link_searcher_sources _ _ _ Hfeed) as [_ [added [Himages [Hlen Hfrom]]]].
  cbn [ImageLinkSearcher.init ImageLinkSearcher.images ImageLinkSearcher.linkstack app]
    in Himages, Hfrom.
  rewrite Himages. split; [|exact Hlen].
  intros v Hv. destruct (Hfrom v Hv) as [h [-> [[]|Hh]]]. now exists h.
Qed.

Lemma find_link_images_returns_hrefs_witness :
  find_link_images example_events html_linked_page = OK [Str "http://x/page.html"]
  /\ (forall v, In v [Str "http://x/page.html"] ->
                exists h, v = Str h
                          /\ In (Str h) (pushed_hrefs (example_events html_linked_page)))
  /\ 1 <= count_img (example_events html_linked_page).
Proof.
  split; [reflexivity|].
  exact (find_link_images_returns_hrefs example_events html_linked_page
           [Str "http://x/page.html"] eq_refl).
Defined.

(** Inside an open anchor, without further anchor tags, every [img] tag
    records the top of the stack. *)
Lemma link_searcher_images_in_anchor (evs : list event) :
  forall (stack : list pyval) (h : string) (imgs : list pyval),
    no_anchor_events evs = true ->
    feed_events {| ImageLinkSearcher.linkstack := stack ++ [Str h];
                   ImageLinkSearcher.images := imgs |} evs
    = OK {| ImageLinkSearcher.linkstack := stack ++ [Str h];
            ImageLinkSearcher.images := imgs ++ repeat (Str h) (count_img evs) |}.
Proof.
  induction evs as [|e evs IH]; intros stack h imgs Hno.
  - simpl. now rewrite app_nil_r.
  - cbn [no_anchor_events forallb] in Hno. apply andb_true_iff in Hno as [He Hevs].
    rewrite count_img_cons. cbn [feed_events].
    destruct (is_img_start e) eqn:Himg.
    + destruct e as [tag attrs|tag|]; try discriminate.
      cbn [is_img_start] in Himg. apply String.eqb_eq in Himg. subst tag.
      cbn [handle_event handle_starttag ImageLinkSearcher.parser].
      unfold ImageLinkSearcher.starttag.
      change (String.eqb "img" "a") with false. change (String.eqb "img" "img") with true.
      cbn [rbind ImageLinkSearcher.linkstack ImageLinkSearcher.images].
      rewrite truthy_snoc, list_getitem_last. cbn [rbind is_image_filename].
      change (truthy (map (fun ext => endswith h ext) extensions)) with true.
      cbn [rbind]. rewrite (IH stack h _ Hevs). cbn [Nat.add repeat].
      now rewrite <- app_assoc.
    + rewrite (link_searcher_inner_event _ e) by (now rewrite He, Himg).
      cbn [rbind Nat.add]. now apply IH.
Qed.

(** X11. An anchor with an href and no anchor tag inside it contributes
    its href once for every [img] tag it contains, at any nesting depth,
    and leaves the stack as it found it, so that an enclosing anchor is
    the current one again after the [</a>]. *)
Theorem anchor_records_href_per_image :
  forall (st : ImageLinkSearcher.t) (attrs : list (string * pyval)) (h : string)
         (others : list pyval) (inner : list event),
    find_key attrs "href" = Str h :: others ->
    no_anchor_events inner = true ->
    feed_events st (StartTag "a" attrs :: inner ++ [EndTag "a"])
    = OK {| ImageLinkSearcher.linkstack := ImageLinkSearcher.linkstack st;
            ImageLinkSearcher.images :=
              ImageLinkSearcher.images st ++ repeat (Str h) (count_img inner) |}.
Proof.
  intros st attrs h others inner Hhref Hno.
  cbn [feed_events handle_event handle_starttag ImageLinkSearcher.parser].
  rewrite (link_searcher_push _ _ _ _ Hhref). cbn [rbind].
  rewrite feed_events_app, (link_searcher_images_in_anchor inner _ h _ Hno).
  cbn [rbind feed_events handle_event handle_endtag ImageLinkSearcher.parser].
  unfold ImageLinkSearcher.endtag. change (String.eqb "a" "a") with true.
  cbn [ImageLinkSearcher.linkstack ImageLinkSearcher.images].
  now rewrite list_pop_snoc.
Qed.

Lemma anchor_records_href_per_image_witness :
  find_key [("href", Str "http://x/in.png")] "href" = [Str "http://x/in.png"]
  /\ no_anchor_events
       [StartTag "img" []; StartTag "div" []; StartTag "img" []; EndTag "div"] = true
  /\ feed_events
       {| ImageLinkSearcher.linkstack := [Str "http://x/out.png"];
          ImageLinkSearcher.images := [] |}
       (StartTag "a" [("href", Str "http://x/in.png")]
          :: [StartTag "img" []; StartTag "div" []; StartTag "img" []; EndTag "div"]
          ++ [EndTag "a"])
     = OK {| ImageLinkSearcher.linkstack := [Str "http://x/out.png"];
             ImageLinkSearcher.images := [Str "http://x/in.png"; Str "http://x/in.png"] |}.
Proof.
  split; [reflexivity|]. split; [reflexivity|].
  exact (anchor_records_href_per_image
           {| ImageLinkSearcher.linkstack := [Str "http://x/out.png"];
              ImageLinkSearcher.images := [] |}
           [("href", Str "http://x/in.png")] "http://x/in.png" []
           [StartTag "img" []; StartTag "div" []; StartTag "img" []; EndTag "div"]
           eq_refl eq_refl).
Defined.

(** X12. An [img] tag inside an anchor whose first [href] has no value
    (as in [<a href>]) makes the scan raise [AttributeError]: [None] is
    pushed like any href and [is_image_filename] calls [endswith] on it. *)
Theorem img_under_valueless_href_raises :
  forall (st : ImageLinkSearcher.t) (attrs : list (string * pyval))
         (others : list pyval) (inner : list event)
         (img_attrs : list (string * pyval)) (rest : list event),
    find_key attrs "href" = PyNone :: others ->
    inner_events_ok inner = true ->
    feed_events st (StartTag "a" attrs :: inner ++ StartTag "img" img_attrs :: rest)
    = Raise AttributeError.
Proof.
  intros st attrs others inner img_attrs rest Hhref Hinner.
  cbn [feed_events handle_event handle_starttag ImageLinkSearcher.parser].
  rewrite (link_searcher_push _ _ _ _ Hhref). cbn [rbind].
  rewrite feed_events_app, (link_searcher_inner_events _ _ Hinner).
  cbn [rbind feed_events handle_event handle_starttag ImageLinkSearcher.parser].
  unfold ImageLinkSearcher.starttag.
  change (String.eqb "img" "a") with false. change (String.eqb "img" "img") with true.
  cbn [rbind ImageLinkSearcher.linkstack ImageLinkSearcher.images].
  now rewrite truthy_snoc, list_getitem_last.
Qed.

Lemma img_under_valueless_href_raises_witness :
  find_key [("href", PyNone)] "href" = [PyNone]
  /\ inner_events_ok [Ignored] = true
  /\ feed_events ImageLinkSearcher.init
       (StartTag "a" [("href", PyNone)]
          :: [Ignored] ++ StartTag "img" [("src", Str "t.png")] :: [EndTag "a"])
     = Raise AttributeError.
Proof.
  split; [reflexivity|]. split; [reflexivity|].
  exact (img_under_valueless_href_raises ImageLinkSearcher.init [("href", PyNone)] []
           [Ignored] [("src", Str "t.png")] [EndTag "a"] eq_refl eq_refl).
Defined.

(** ** Further properties of the paginator *)

Section MorePaginationFacts.

Context {P : Type}.
Variable server : list string -> string -> result response.
Variable decode : list byte -> string.
Variable json_loads : string -> result (page P).
Variables blog_id api_key : string.

(** A failing fetch inside the [try] block. *)
Lemma get_all_posts_try_error (data : page P) (posts : list P) (token : string)
    (e : exn) (w : world) :
  nextPageToken data = Some token ->
  call_json server decode json_loads (posts_page_url blog_id api_key token) w
  = (Raise e, visit (posts_page_url blog_id api_key token) w) ->
  get_all_posts_try server decode json_loads blog_id api_key data posts w
  = (Raise e, visit (posts_page_url blog_id api_key token) w).
Proof.
  intros Htoken Hcall. unfold get_all_posts_try, bind at 1.
  rewrite Htoken. cbn [lift dict_getitem]. unfold bind at 1. now rewrite Hcall.
Qed.

Lemma get_all_posts_loop_breaks (e : exn) (rest : list (page P)) :
  forall (data : page P) (posts : list P) (w : world) (fuel : nat),
    e <> KeyError ->
    breaks_after server decode json_loads blog_id api_key e data rest w ->
    forallb has_items rest = true ->
    length rest < fuel ->
    option_map fst
      (get_all_posts_loop server decode json_loads fuel blog_id api_key data posts w)
    = Some (Raise e).
Proof.
  induction rest as [|p rest IH]; intros data posts w fuel He Hbreaks Hitems Hfuel;
    (destruct fuel as [|fuel]; [simpl in Hfuel; lia|]);
    cbn [get_all_posts_loop]; cbn [breaks_after] in Hbreaks;
    (destruct (nextPageToken data) as [token|] eqn:Htoken; [|contradiction]).
  - rewrite (get_all_posts_try_error data posts token e w Htoken Hbreaks).
    now destruct e.
  - destruct Hbreaks as [Hcall Hbreaks].
    cbn [forallb] in Hitems. apply andb_true_iff in Hitems as [Hp Hrest].
    unfold has_items in Hp. destruct (items p) as [more|] eqn:Hmore; [|discriminate].
    rewrite (get_all_posts_try_next server decode json_loads blog_id api_key
               data p posts more token w Htoken Hcall Hmore).
    apply IH; [exact He|exact Hbreaks|exact Hrest|simpl in Hfuel; lia].
Qed.

Lemma get_all_posts_loop_requests (rest : list (page P)) :
  forall (data : page P) (posts : list P) (w : world) (fuel : nat),
    continues server decode json_loads blog_id api_key data rest w ->
    forallb has_items rest = true ->
    length rest < fuel ->
    option_map snd
      (get_all_posts_loop server decode json_loads fuel blog_id api_key data posts w)
    = Some {| requests := rev (tl (listing_urls blog_id api_key (data :: rest)))
                            ++ requests w;
              files := files w |}.
Proof.
  induction rest as [|p rest IH]; intros data posts w fuel Hcont Hitems Hfuel;
    (destruct fuel as [|fuel]; [simpl in Hfuel; lia|]); cbn [get_all_posts_loop].
  - simpl in Hcont. rewrite (get_all_posts_try_last _ _ _ _ _ data posts w Hcont).
    unfold listing_urls. cbn [tl flat_map]. rewrite Hcont. now destruct w.
  - cbn [continues] in Hcont.
    destruct (nextPageToken data) as [token|] eqn:Htoken; [|contradiction].
    destruct Hcont as [Hcall Hcont].
    cbn [forallb] in Hitems. apply andb_true_iff in Hitems as [Hp Hrest].
    unfold has_items in Hp. destruct (items p) as [more|] eqn:Hmore; [|discriminate].
    rewrite (get_all_posts_try_next server decode json_loads blog_id api_key
               data p posts more token w Htoken Hcall Hmore).
    rewrite (IH p (posts ++ more) _ fuel Hcont Hrest) by (simpl in Hfuel; lia).
    unfold listing_urls. cbn [tl flat_map visit requests files]. rewrite Htoken.
    cbn [app rev]. now rewrite <- app_assoc.
Qed.

Lemma get_all_posts_loop_endless (fuel : nat) :
  forall (data : page P) (posts : list P) (token : string) (w : world),
    (forall url w0, exists p more next,
        call_json server decode json_loads url w0 = (OK p, visit url w0)
        /\ items p = Some more /\ nextPageToken p = Some next) ->
    nextPageToken data = Some token ->
    get_all_posts_loop server decode json_loads fuel blog_id api_key data posts w = None.
Proof.
  induction fuel as [|fuel IH]; intros data posts token w Hserver Htoken.
  - reflexivity.
  - cbn [get_all_posts_loop].
    destruct (Hserver (posts_page_url blog_id api_key token) w)
      as [p [more [next [Hcall [Hmore Hnext]]]]].
    rewrite (get_all_posts_try_next server decode json_loads blog_id api_key
               data p posts more token w Htoken Hcall Hmore).
    now apply (IH p (posts ++ more) next).
Qed.

End MorePaginationFacts.

(** X13. A fetch that fails with anything but [KeyError] (a transport
    failure, malformed JSON) on a later page aborts [get_all_posts] with
    that exception: the posts of the pages fetched before are not
    returned. *)
Theorem get_all_posts_aborts_on_fetch_error :
  forall (P : Type) (server : list string -> string -> result response)
         (decode : list byte -> string) (json_loads : string -> result (page P))
         (blog_id api_key : string) (e : exn) (first : page P) (rest : list (page P))
         (w : world) (fuel : nat),
    e <> KeyError ->
    call_json server decode json_loads (posts_url blog_id api_key) w
    = (OK first, visit (posts_url blog_id api_key) w) ->
    breaks_after server decode json_loads blog_id api_key e first rest
      (visit (posts_url blog_id api_key) w) ->
    forallb has_items (first :: rest) = true ->
    length rest < fuel ->
    option_map fst (get_all_posts server decode json_loads fuel blog_id api_key w)
    = Some (Raise e).
Proof.
  intros P server decode json_loads blog_id api_key e first rest w fuel
    He Hcall Hbreaks Hitems Hfuel.
  cbn [forallb] in Hitems. apply andb_true_iff in Hitems as [Hfirst Hrest].
  unfold has_items in Hfirst.
  destruct (items first) as [posts|] eqn:Hposts; [|discriminate].
  unfold get_all_posts, bind at 1. rewrite Hcall.
  unfold bind, lift, ret. rewrite Hposts. cbn [dict_getitem].
  now apply (get_all_posts_loop_breaks server decode json_loads blog_id api_key e rest).
Qed.

Lemma get_all_posts_aborts_on_fetch_error_witness :
  URLError <> KeyError
  /\ call_json more_server ascii_decode example_json_loads (posts_url "13" "KEY") world0
     = (OK page_one, visit (posts_url "13" "KEY") world0)
  /\ breaks_after more_server ascii_decode example_json_loads "13" "KEY" URLError
       page_one [] (visit (posts_url "13" "KEY") world0)
  /\ option_map fst
       (get_all_posts more_server ascii_decode example_json_loads 1 "13" "KEY" world0)
     = Some (Raise URLError).
Proof.
  assert (Hne : URLError <> KeyError) by discriminate.
  assert (Hfirst :
    call_json more_server ascii_decode example_json_loads (posts_url "13" "KEY") world0
    = (OK page_one, visit (posts_url "13" "KEY") world0)) by (vm_compute; reflexivity).
  assert (Hbreaks :
    breaks_after more_server ascii_decode example_json_loads "13" "KEY" URLError
      page_one [] (visit (posts_url "13" "KEY") world0)) by (vm_compute; reflexivity).
  split; [exact Hne|]. split; [exact Hfirst|]. split; [exact Hbreaks|].
  exact (get_all_posts_aborts_on_fetch_error string more_server ascii_decode
           example_json_loads "13" "KEY" URLError page_one [] world0 1
           Hne Hfirst Hbreaks eq_refl (le_n 1)).
Defined.

(** X14. A successful pagination makes one request for each page, in
    order: the listing URL first, then the URL built from the token of each
    page; it writes no file. *)
Theorem get_all_posts_requests_one_url_per_page :
  forall (P : Type) (server : list string -> string -> result response)
         (decode : list byte -> string) (json_loads : string -> result (page P))
         (blog_id api_key : string) (first : page P) (rest : list (page P))
         (w : world) (fuel : nat),
    paginates server decode json_loads blog_id api_key first rest w ->
    forallb has_items (first :: rest) = true ->
    length (first :: rest) <= fuel ->
    option_map snd (get_all_posts server decode json_loads fuel blog_id api_key w)
    = Some {| requests := rev (listing_urls blog_id api_key (first :: rest)) ++ requests w;
              files := files w |}.
Proof.
  intros P server decode json_loads blog_id api_key first rest w fuel
    [Hcall Hcont] Hitems Hfuel.
  cbn [forallb] in Hitems. apply andb_true_iff in Hitems as [Hfirst Hrest].
  unfold has_items in Hfirst.
  destruct (items first) as [posts|] eqn:Hposts; [|discriminate].
  unfold get_all_posts, bind at 1. rewrite Hcall.
  unfold bind, lift, ret. rewrite Hposts. cbn [dict_getitem].
  rewrite (get_all_posts_loop_requests server decode json_loads blog_id api_key rest
             first posts _ fuel Hcont Hrest) by (simpl in Hfuel; lia).
  unfold listing_urls. cbn [tl visit requests files rev]. now rewrite <- app_assoc.
Qed.

Lemma get_all_posts_requests_one_url_per_page_witness :
  paginates example_server ascii_decode example_json_loads "42" "KEY"
    page_one [page_two; page_three] world0
  /\ option_map snd
       (get_all_posts example_server ascii_decode example_json_loads 3 "42" "KEY" world0)
     = Some {| requests := [posts_page_url "42" "KEY" "t2";
                            posts_page_url "42" "KEY" "t1";
                            posts_url "42" "KEY"];
               files := ∅ |}.
Proof.
  assert (Hpages : paginates example_server ascii_decode example_json_loads "42" "KEY"
                     page_one [page_two; page_three] world0).
  { repeat split; vm_compute; reflexivity. }
  split; [exact Hpages|].
  exact (get_all_posts_requests_one_url_per_page string example_server ascii_decode
           example_json_loads "42" "KEY" page_one [page_two; page_three] world0 3
           Hpages eq_refl (le_n 3)).
Defined.

(** X15. When every response of the server is a listing with [items] and
    a [nextPageToken], the loop of [get_all_posts] does not end: whatever
    the bound on the number of iterations, the function has not returned.
    Nothing limits the number of pages or detects a repeated token. *)
Theorem get_all_posts_endless_listing :
  forall (P : Type) (server : list string -> string -> result response)
         (decode : list byte -> string) (json_loads : string -> result (page P))
         (blog_id api_key : string) (w : world) (fuel : nat),
    (forall url w0, exists p more next,
        call_json server decode json_loads url w0 = (OK p, visit url w0)
        /\ items p = Some more /\ nextPageToken p = Some next) ->
    get_all_posts server decode json_loads fuel blog_id api_key w = None.
Proof.
  intros P server decode json_loads blog_id api_key w fuel Hserver.
  destruct (Hserver (posts_url blog_id api_key) w) as [p [more [next [Hcall [Hmore Hnext]]]]].
  unfold get_all_posts, bind at 1. rewrite Hcall.
  unfold bind, lift, ret. rewrite Hmore. cbn [dict_getitem].
  now apply (get_all_posts_loop_endless server decode json_loads blog_id api_key fuel
               p more next).
Qed.

Lemma get_all_posts_endless_listing_witness :
  (forall url w0, exists p more next,
      call_json endless_server ascii_decode example_json_loads url w0
      = (OK p, visit url w0)
      /\ items p = Some more /\ nextPageToken p = Some next)
  /\ get_all_posts endless_server ascii_decode example_json_loads 1000 "42" "KEY" world0
     = None.
Proof.
  assert (Hserver : forall url w0, exists p more next,
             call_json endless_server ascii_decode example_json_loads url w0
             = (OK p, visit url w0)
             /\ items p = Some more /\ nextPageToken p = Some next).
  { intros url w0. exists page_one, ["one"; "two"], "t1". repeat split. }
  split; [exact Hserver|].
  exact (get_all_posts_endless_listing string endless_server ascii_decode
           example_json_loads "42" "KEY" world0 1000 Hserver).
Defined.

Lemma first_page_without_items_raises_witness :
  call_json more_server ascii_decode example_json_loads (posts_url "5" "KEY") world0
  = (OK page_without_items, visit (posts_url "5" "KEY") world0)
  /\ items page_without_items = None
  /\ option_map fst
       (get_all_posts more_server ascii_decode example_json_loads 1 "5" "KEY" world0)
     = Some (Raise KeyError).
Proof.
  assert (Hfirst :
    call_json more_server ascii_decode example_json_loads (posts_url "5" "KEY") world0
    = (OK page_without_items, visit (posts_url "5" "KEY") world0))
    by (vm_compute; reflexivity).
  split; [exact Hfirst|]. split; [reflexivity|].
  exact (first_page_without_items_raises string more_server ascii_decode
           example_json_loads "5" "KEY" page_without_items world0 1 Hfirst eq_refl).
Defined.

(** ** Further properties of the downloader *)

Lemma rfind_aux_slash (name : string) (i last : Z) :
  rfind_aux "/" (String "/" name) i last = rfind_aux "/" name (i + 1)%Z i.
Proof.
  cbn [rfind_aux String.prefix].
  destruct (ascii_dec "/" "/") as [_|Hne]; [|contradiction].
  now destruct name.
Qed.

Lemma rfind_aux_last_slash (name : string) :
  str_contains name "/" = false ->
  forall (p : string) (i last : Z),
    rfind_aux "/" (p ++ String "/" name) i last = (i + Z.of_nat (String.length p))%Z.
Proof.
  intros Hname. induction p as [|c p IH]; intros i last.
  - change (("" ++ String "/" name)%string) with (String "/" name).
    rewrite rfind_aux_slash, (rfind_aux_absent name _ _ Hname).
    cbn [String.length]. lia.
  - change ((String c p ++ String "/" name)%string)
      with (String c (p ++ String "/" name)%string).
    cbn [rfind_aux]. rewrite IH. cbn [String.length]. lia.
Qed.

Lemma slice_after_slash (p name : string) :
  slice_from (p ++ String "/" name) (Z.of_nat (String.length p) + 1) = name.
Proof.
  unfold slice_from. rewrite string_length_append. cbn [String.length].
  destruct (Z.ltb_spec (Z.of_nat (String.length p) + 1) 0) as [Hneg|_]; [lia|].
  rewrite Z.min_l by lia.
  replace (Z.to_nat (Z.of_nat (String.length p) + 1)) with (String.length p + 1) by lia.
  replace (String.length p + S (String.length name) - (String.length p + 1))
    with (String.length name) by lia.
  replace (p ++ String "/" name)%string with ((p ++ "/") ++ name)%string.
  - replace (String.length p + 1) with (String.length (p ++ "/")%string)
      by (rewrite string_length_append; reflexivity).
    rewrite substring_skip. apply substring_all.
  - clear. induction p as [|c p IH].
    + reflexivity.
    + change (String c ((p ++ "/") ++ name)%string = String c (p ++ String "/" name)%string).
      now rewrite IH.
Qed.

Lemma download_last_segment
    (server : list string -> string -> result response)
    (path_join : string -> string -> string) (openable : string -> bool)
    (prefix name directory : string) (w : world) (r : response) :
  str_contains name "/" = false ->
  server (requests w) (prefix ++ String "/" name)%string = OK r ->
  openable (path_join directory name) = true ->
  download_url_to_directory server path_join openable
    (prefix ++ String "/" name)%string directory w
  = (OK (length (body r)),
     {| requests := (prefix ++ String "/" name)%string :: requests w;
        files := <[path_join directory name := body r]> (files w) |}).
Proof.
  intros Hname Hserver Hopen.
  unfold download_url_to_directory, bind, urlopen, open_wb, file_write, ret.
  rewrite Hserver. unfold rfind. rewrite (rfind_aux_last_slash name Hname).
  rewrite Z.add_0_l, slice_after_slash, Hopen.
  cbn [requests files visit]. now rewrite insert_insert_eq.
Qed.

(** X17. The file is named after what follows the last ['/'] of the URL:
    for a URL [prefix/name] where [name] has no ['/'] (it may be empty),
    the body is written to the directory joined with [name], nothing else
    is written, and the length of the body is returned. *)
Theorem download_names_file_after_last_slash :
  forall (server : list string -> string -> result response)
         (path_join : string -> string -> string) (openable : string -> bool)
         (prefix name directory : string) (w : world) (r : response),
    str_contains name "/" = false ->
    server (requests w) (prefix ++ String "/" name)%string = OK r ->
    openable (path_join directory name) = true ->
    download_url_to_directory server path_join openable
      (prefix ++ String "/" name)%string directory w
    = (OK (length (body r)),
       {| requests := (prefix ++ String "/" name)%string :: requests w;
          files := <[path_join directory name := body r]> (files w) |}).
Proof.
  intros server path_join openable prefix name directory w r.
  apply download_last_segment.
Qed.

Lemma download_names_file_after_last_slash_witness :
  str_contains "pic.png" "/" = false
  /\ more_server (requests world0) "http://x/dir/pic.png"
     = OK {| content_type := Str "image/png"; body := list_byte_of_string "PNG1" |}
  /\ download_url_to_directory more_server posix_path_join (fun _ => true)
       "http://x/dir/pic.png" "out" world0
     = (OK 4,
        {| requests := ["http://x/dir/pic.png"];
           files := <["out/pic.png" := list_byte_of_string "PNG1"]> ∅ |}).
Proof.
  split; [reflexivity|]. split; [reflexivity|].
  exact (download_names_file_after_last_slash more_server posix_path_join (fun _ => true)
           "http://x/dir" "pic.png" "out" world0 _ eq_refl eq_refl eq_refl).
Defined.

(** X18. Two URLs with the same last segment are written to the same
    path: after both downloads the file holds the body of the second, and
    the first body is gone. *)
Theorem download_same_name_overwrites :
  forall (server : list string -> string -> result response)
         (path_join : string -> string -> string) (openable : string -> bool)
         (prefix1 prefix2 name directory : string) (w : world) (r1 r2 : response),
    str_contains name "/" = false ->
    server (requests w) (prefix1 ++ String "/" name)%string = OK r1 ->
    server ((prefix1 ++ String "/" name)%string :: requests w)
      (prefix2 ++ String "/" name)%string = OK r2 ->
    openable (path_join directory name) = true ->
    (size1 <- download_url_to_directory server path_join openable
                (prefix1 ++ String "/" name)%string directory ;;
     size2 <- download_url_to_directory server path_join openable
                (prefix2 ++ String "/" name)%string directory ;;
     ret (size1, size2)) w
    = (OK (length (body r1), length (body r2)),
       {| requests := (prefix2 ++ String "/" name)%string
                        :: (prefix1 ++ String "/" name)%string :: requests w;
          files := <[path_join directory name := body r2]> (files w) |}).
Proof.
  intros server path_join openable prefix1 prefix2 name directory w r1 r2
    Hname Hserver1 Hserver2 Hopen.
  unfold bind at 1.
  rewrite (download_last_segment server path_join openable
             prefix1 name directory w r1 Hname Hserver1 Hopen).
  unfold bind at 1.
  rewrite (download_last_segment server path_join openable
             prefix2 name directory
             {| requests := (prefix1 ++ String "/" name)%string :: requests w;
                files := <[path_join directory name := body r1]> (files w) |}
             r2 Hname Hserver2 Hopen).
  unfold ret. cbn [requests files]. now rewrite insert_insert_eq.
Qed.

Lemma download_same_name_overwrites_witness :
  str_contains "pic.png" "/" = false
  /\ more_server (requests world0) "http://x/dir/pic.png"
     = OK {| content_type := Str "image/png"; body := list_byte_of_string "PNG1" |}
  /\ more_server ["http://x/dir/pic.png"] "http://y/other/pic.png"
     = OK {| content_type := Str "image/png"; body := list_byte_of_string "PNG22" |}
  /\ (size1 <- download_url_to_directory more_server posix_path_join (fun _ => true)
                 "http://x/dir/pic.png" "out" ;;
      size2 <- download_url_to_directory more_server posix_path_join (fun _ => true)
                 "http://y/other/pic.png" "out" ;;
      ret (size1, size2)) world0
     = (OK (4, 5),
        {| requests := ["http://y/other/pic.png"; "http://x/dir/pic.png"];
           files := <["out/pic.png" := list_byte_of_string "PNG22"]> ∅ |}).
Proof.
  split; [reflexivity|]. split; [reflexivity|]. split; [reflexivity|].
  exact (download_same_name_overwrites more_server posix_path_join (fun _ => true)
           "http://x/dir" "http://y/other" "pic.png" "out" world0 _ _
           eq_refl eq_refl eq_refl eq_refl).
Defined.



(** ** The link pipeline *)

Lemma iterate_app {A : Type} (l1 l2 : list A) :
  iterate (l1 ++ l2) = iterate l1 ++ iterate l2.
Proof. apply map_app. Qed.

Lemma flatten_once_app {A : Type} (lists : list (list A)) (tail : generator (list A)) :
  flatten_once (iterate lists ++ tail) = iterate (concat lists) ++ flatten_once tail.
Proof.
  induction lists as [|l lists IH].
  - reflexivity.
  - change (flatten_once (iterate (l :: lists) ++ tail))
      with (iterate l ++ flatten_once (iterate lists ++ tail)).
    rewrite IH. cbn [concat]. now rewrite iterate_app, app_assoc.
Qed.

(** X20. [flatten_once] yields the items of the inner lists in order,
    list after list; when the outer generator raises, the items of the
    lists before the exception have been yielded, the exception follows
    them and nothing comes after it. *)
Theorem flatten_once_in_order :
  forall (A : Type) (lists : list (list A)) (e : exn) (rest : generator (list A)),
    flatten_once (iterate lists) = iterate (concat lists)
    /\ flatten_once (iterate lists ++ Raise e :: rest) = iterate (concat lists) ++ [Raise e].
Proof.
  intros A lists e rest. split.
  - rewrite <- (app_nil_r (iterate lists)), flatten_once_app. apply app_nil_r.
  - now rewrite flatten_once_app.
Qed.

(** The links of the first post come first; a post that cannot be scanned
    ends the sequence. *)
Lemma all_links_cons (html_events : string -> list event) (post : post_object)
    (posts : list post_object) :
  all_links html_events (post :: posts)
  = match post_links html_events post with
    | OK links => iterate links ++ all_links html_events posts
    | Raise e => [Raise e]
    end.
Proof.
  unfold all_links, post_links. cbn [iterate map generate].
  destruct (dict_getitem (content_key post)) as [content|e]; [|reflexivity].
  cbn [generate rbind].
  destruct (find_link_images html_events content) as [links|e]; reflexivity.
Qed.

Lemma all_links_app (html_events : string -> list event) (good : list post_object)
    (links : list (list pyval)) :
  Forall2 (fun post l => post_links html_events post = OK l) good links ->
  forall tail : list post_object,
    all_links html_events (good ++ tail)
    = iterate (concat links) ++ all_links html_events tail.
Proof.
  induction 1 as [|post l good links Hpost _ IH]; intros tail.
  - reflexivity.
  - cbn [app concat]. rewrite all_links_cons, Hpost, IH, iterate_app.
    now rewrite app_assoc.
Qed.

(** X21. The links [linked_image_urls] works on are the links of the
    posts in post order and, within a post, in document order. A post
    without [content], or whose scan raises, ends the sequence with that
    exception after the links of the posts before it. *)
Theorem all_links_in_post_order :
  forall (html_events : string -> list event) (good : list post_object)
         (links : list (list pyval)),
    Forall2 (fun post l => post_links html_events post = OK l) good links ->
    all_links html_events good = iterate (concat links)
    /\ forall (bad : post_object) (e : exn) (rest : list post_object),
         post_links html_events bad = Raise e ->
         all_links html_events (good ++ bad :: rest) = iterate (concat links) ++ [Raise e].
Proof.
  intros html_events good links Hgood. split.
  - rewrite <- (app_nil_r good), (all_links_app html_events good links Hgood).
    apply app_nil_r.
  - intros bad e rest Hbad.
    rewrite (all_links_app html_events good links Hgood), all_links_cons.
    now rewrite Hbad.
Qed.

Lemma all_links_in_post_order_witness :
  Forall2 (fun post l => post_links blog_events post = OK l) blog_posts
    [[Str "http://x/c.gif"]; [Str "http://x/page.html"]]
  /\ all_links blog_events blog_posts
     = [OK (Str "http://x/c.gif"); OK (Str "http://x/page.html")]
  /\ forall (bad : post_object) (e : exn) (rest : list post_object),
       post_links blog_events bad = Raise e ->
       all_links blog_events (blog_posts ++ bad :: rest)
       = [OK (Str "http://x/c.gif"); OK (Str "http://x/page.html")] ++ [Raise e].
Proof.
  assert (Hposts : Forall2 (fun post l => post_links blog_events post = OK l) blog_posts
                     [[Str "http://x/c.gif"]; [Str "http://x/page.html"]]).
  { repeat constructor. }
  split; [exact Hposts|].
  exact (all_links_in_post_order blog_events blog_posts
           [[Str "http://x/c.gif"]; [Str "http://x/page.html"]] Hposts).
Defined.

(** ** The entry point *)

Lemma call_json_world {P : Type} (server : list string -> string -> result response)
    (decode : list byte -> string) (json_loads : string -> result (page P))
    (url : string) (w : world) :
  snd (call_json server decode json_loads url w) = visit url w.
Proof.
  unfold call_json, bind, urlopen, lift.
  now destruct (server (requests w) url).
Qed.

Lemma get_all_posts_try_files {P : Type}
    (server : list string -> string -> result response)
    (decode : list byte -> string) (json_loads : string -> result (page P))
    (blog_id api_key : string) (data : page P) (posts : list P) (w : world) :
  files (snd (get_all_posts_try server decode json_loads blog_id api_key data posts w))
  = files w.
Proof.
  unfold get_all_posts_try, bind at 1.
  destruct (nextPageToken data) as [token|]; [|reflexivity].
  cbn [lift dict_getitem]. unfold bind at 1.
  pose proof (call_json_world server decode json_loads
                (posts_page_url blog_id api_key token) w) as Hworld.
  destruct (call_json server decode json_loads (posts_page_url blog_id api_key token) w)
    as [[next|e] w1]; cbn [snd] in Hworld; subst w1; [|reflexivity].
  unfold bind, lift, ret. now destruct (dict_getitem (items next)).
Qed.

Lemma get_all_posts_loop_files {P : Type}
    (server : list string -> string -> result response)
    (decode : list byte -> string) (json_loads : string -> result (page P))
    (blog_id api_key : string) (fuel : nat) :
  forall (data : page P) (posts : list P) (w : world) (r : result (list P)) (w' : world),
    get_all_posts_loop server decode json_loads fuel blog_id api_key data posts w
    = Some (r, w') ->
    files w' = files w.
Proof.
  induction fuel as [|fuel IH]; intros data posts w r w' Hloop; [discriminate|].
  cbn [get_all_posts_loop] in Hloop.
  pose proof (get_all_posts_try_files server decode json_loads blog_id api_key
                data posts w) as Hfiles.
  destruct (get_all_posts_try server decode json_loads blog_id api_key data posts w)
    as [[[data1 posts1]|e] w1]; cbn [snd] in Hfiles.
  - rewrite <- Hfiles. exact (IH _ _ _ _ _ Hloop).
  - destruct e; injection Hloop as _ <-; exact Hfiles.
Qed.

Lemma get_all_posts_files {P : Type}
    (server : list string -> string -> result response)
    (decode : list byte -> string) (json_loads : string -> result (page P))
    (blog_id api_key : string) (fuel : nat) (w : world)
    (r : result (list P)) (w' : world) :
  get_all_posts server decode json_loads fuel blog_id api_key w = Some (r, w') ->
  files w' = files w.
Proof.
  unfold get_all_posts, bind at 1.
  pose proof (call_json_world server decode json_loads (posts_url blog_id api_key) w)
    as Hworld.
  destruct (call_json server decode json_loads (posts_url blog_id api_key) w)
    as [[first|e] w1]; cbn [snd] in Hworld; subst w1.
  - unfold bind, lift, ret. destruct (dict_getitem (items first)) as [posts|e].
    + intros Hloop. now rewrite (get_all_posts_loop_files _ _ _ _ _ _ _ _ _ _ _ Hloop).
    + now intros [= _ <-].
  - now intros [= _ <-].
Qed.

Lemma get_blog_id_files (server : list string -> string -> result response)
    (decode : list byte -> string) (json_loads_blog : string -> result blog_object)
    (url api_key : string) (w : world) :
  files (snd (get_blog_id server decode json_loads_blog url api_key w)) = files w.
Proof.
  unfold get_blog_id, call_json_blog, bind, urlopen, lift, ret.
  destruct (server (requests w) (blog_lookup_url url api_key)) as [r|e]; [|reflexivity].
  destruct (json_loads_blog (decode (body r))) as [data|e]; [|reflexivity].
  now destruct (dict_getitem (id_key data)).
Qed.

Lemma follow_image_embeds_world (server : list string -> string -> result response)
    (decode : list byte -> string) (html_events : string -> list event)
    (url : string) (w : world) :
  snd (follow_image_embeds server decode html_events url w) = visit url w.
Proof.
  unfold follow_image_embeds, bind, urlopen.
  destruct (server (requests w) url) as [[[ct|] html]|e]; cbn [content_type body].
  - now destruct (startswith ct "image").
  - reflexivity.
  - reflexivity.
Qed.

Lemma follow_all_files (server : list string -> string -> result response)
    (decode : list byte -> string) (html_events : string -> list event)
    (links : generator pyval) :
  Forall (fun next : M pyval => forall w, files (snd (next w)) = files w)
    (follow_all server decode html_events links).
Proof.
  unfold follow_all. induction links as [|[[url|]|e] links IH]; cbn [map];
    constructor; try exact IH; intros w; try reflexivity.
  cbn [urlopen_value]. now rewrite follow_image_embeds_world.
Qed.

Lemma for_each_print_files (image_links : list (M pyval)) :
  Forall (fun next : M pyval => forall w, files (snd (next w)) = files w) image_links ->
  forall p : process,
    files (world_of (snd (for_each image_links (fun url => print (str url)) p)))
    = files (world_of p).
Proof.
  induction 1 as [|next rest Hnext _ IH]; intros p.
  - reflexivity.
  - cbn [for_each]. unfold io_bind at 1, in_world.
    specialize (Hnext (world_of p)).
    destruct (next (world_of p)) as [[url|e] w1]; cbn [snd] in Hnext.
    + unfold io_bind, print. cbn [fst snd]. rewrite IH. exact Hnext.
    + exact Hnext.
Qed.

(** X22. Called with a blog URL and a key only, [main] writes no file,
    whether it ends normally or with an exception. *)
Theorem main_print_mode_writes_no_file :
  forall (server : list string -> string -> result response)
         (decode : list byte -> string)
         (json_loads_blog : string -> result blog_object)
         (json_loads : string -> result (page post_object))
         (html_events : string -> list event)
         (path_join : string -> string -> string) (openable : string -> bool)
         (isdir : string -> bool) (makedirs : string -> result unit)
         (prettyprint_size : nat -> string)
         (fuel : nat) (argv : list string) (p : process)
         (r : result unit) (p' : process),
    length argv <= 3 ->
    main server decode json_loads_blog json_loads html_events path_join openable
      isdir makedirs prettyprint_size fuel argv p = Some (r, p') ->
    files (world_of p') = files (world_of p).
Proof.
  intros server decode json_loads_blog json_loads html_events path_join openable
    isdir makedirs prettyprint_size fuel argv p r p' Hargv.
  unfold main.
  destruct (let! blog_url := list_getitem argv 1 in
            let! api_key := list_getitem argv 2 in OK (blog_url, api_key))
    as [[blog_url api_key]|e]; [|now intros [= _ <-]].
  unfold linked_image_urls.
  pose proof (get_blog_id_files server decode json_loads_blog blog_url api_key (world_of p))
    as Hid.
  destruct (get_blog_id server decode json_loads_blog blog_url api_key (world_of p))
    as [[blog_id|e] w1]; cbn [snd] in Hid; [|intros [= _ <-]; exact Hid].
  destruct (get_all_posts server decode json_loads fuel blog_id api_key w1)
    as [[[posts|e] w2]|] eqn:Hposts; [| |discriminate];
    apply get_all_posts_files in Hposts; [|intros [= _ <-]; cbn; congruence].
  destruct (Nat.ltb_spec 3 (length argv)) as [Hmore|_]; [lia|].
  intros [= Hrun]. apply (f_equal snd) in Hrun. cbn [snd] in Hrun. rewrite <- Hrun.
  rewrite (for_each_print_files _ (follow_all_files server decode html_events _)).
  cbn [world_of]. congruence.
Qed.

Lemma main_print_mode_writes_no_file_witness :
  length ["prog"; "http://b.example"; "KEY"] <= 3
  /\ main blog_server ascii_decode blog_json_loads_blog blog_json_loads blog_events
       posix_path_join (fun _ => true) (fun _ => true) (fun _ => OK tt)
       (fun _ => "?") 1 ["prog"; "http://b.example"; "KEY"] process0
     = Some (OK tt,
             {| world_of :=
                  {| requests := ["http://x/page.html"; "http://x/c.gif";
                                  posts_url "77" "KEY";
                                  blog_lookup_url "http://b.example" "KEY"];
                     files := ∅ |};
                stdout := ["http://x/c.gif"; "http://x/b.png"] |})
  /\ (∅ : gmap string (list byte)) = files (world_of process0).
Proof.
  assert (Hrun :
    main blog_server ascii_decode blog_json_loads_blog blog_json_loads blog_events
      posix_path_join (fun _ => true) (fun _ => true) (fun _ => OK tt)
      (fun _ => "?") 1 ["prog"; "http://b.example"; "KEY"] process0
    = Some (OK tt,
            {| world_of :=
                 {| requests := ["http://x/page.html"; "http://x/c.gif";
                                 posts_url "77" "KEY";
                                 blog_lookup_url "http://b.example" "KEY"];
                    files := ∅ |};
               stdout := ["http://x/c.gif"; "http://x/b.png"] |}))
    by (vm_compute; reflexivity).
  split; [repeat constructor|]. split; [exact Hrun|].
  exact (main_print_mode_writes_no_file blog_server ascii_decode blog_json_loads_blog
           blog_json_loads blog_events posix_path_join (fun _ => true) (fun _ => true)
           (fun _ => OK tt) (fun _ => "?") 1 ["prog"; "http://b.example"; "KEY"]
           process0 _ _ (le_n 3) Hrun).
Defined.

(** The printing loop prints the links that resolve, in order, and goes on
    with what follows them. *)
Lemma print_loop_prefix (server : list string -> string -> result response)
    (decode : list byte -> string) (html_events : string -> list event)
    (links urls : list pyval) :
  Forall2 (resolves_to server decode html_events) links urls ->
  forall (tail : generator pyval) (p : process),
    exists p1,
      for_each (follow_all server decode html_events (iterate links ++ tail))
        (fun url => print (str url)) p
      = for_each (follow_all server decode html_events tail)
          (fun url => print (str url)) p1
      /\ stdout p1 = stdout p ++ map str urls.
Proof.
  induction 1 as [|link url links urls Hlink _ IH]; intros tail p.
  - exists p. split; [reflexivity|]. cbn [map]. now rewrite app_nil_r.
  - cbn [iterate map app follow_all for_each]. unfold io_bind at 1, in_world.
    specialize (Hlink (world_of p)).
    destruct (urlopen_value (follow_image_embeds server decode html_events) link
                (world_of p)) as [r w1].
    cbn [fst] in Hlink. subst r. unfold io_bind at 1, print. cbn [world_of stdout].
    destruct (IH tail {| world_of := w1; stdout := stdout p ++ [str url] |})
      as [p1 [Hloop Hout]].
    exists p1. split; [exact Hloop|].
    rewrite Hout. cbn [stdout map]. now rewrite <- app_assoc.
Qed.

(** X23. Called with a blog URL and a key, when the lookup and the
    pagination succeed, every post can be scanned and every link
    resolves, [main] prints the resolved URLs, one per line, in post order
    and then link order, and ends normally. *)
Theorem main_prints_resolved_links :
  forall (server : list string -> string -> result response)
         (decode : list byte -> string)
         (json_loads_blog : string -> result blog_object)
         (json_loads : string -> result (page post_object))
         (html_events : string -> list event)
         (path_join : string -> string -> string) (openable : string -> bool)
         (isdir : string -> bool) (makedirs : string -> result unit)
         (prettyprint_size : nat -> string)
         (fuel : nat) (prog blog_url api_key : string) (p : process)
         (blog_id : string) (w1 : world) (posts : list post_object) (w2 : world)
         (links urls : list pyval),
    get_blog_id server decode json_loads_blog blog_url api_key (world_of p)
    = (OK blog_id, w1) ->
    get_all_posts server decode json_loads fuel blog_id api_key w1 = Some (OK posts, w2) ->
    all_links html_events posts = iterate links ->
    Forall2 (resolves_to server decode html_events) links urls ->
    exists p',
      main server decode json_loads_blog json_loads html_events path_join openable
        isdir makedirs prettyprint_size fuel [prog; blog_url; api_key] p
      = Some (OK tt, p')
      /\ stdout p' = stdout p ++ map str urls.
Proof.
  intros server decode json_loads_blog json_loads html_events path_join openable
    isdir makedirs prettyprint_size fuel prog blog_url api_key p blog_id w1 posts w2
    links urls Hid Hposts Hlinks Hurls.
  unfold main. change (list_getitem [prog; blog_url; api_key] 1) with (OK blog_url).
  change (list_getitem [prog; blog_url; api_key] 2) with (OK api_key).
  cbn [rbind]. unfold linked_image_urls. rewrite Hid, Hposts, Hlinks.
  change (3 <? length [prog; blog_url; api_key])%nat with false. cbv iota.
  destruct (print_loop_prefix server decode html_events links urls Hurls []
              {| world_of := w2; stdout := stdout p |}) as [p1 [Hloop Hout]].
  rewrite app_nil_r in Hloop. exists p1. split; [|exact Hout].
  now rewrite Hloop.
Qed.

Lemma main_prints_resolved_links_witness :
  Forall2 (resolves_to blog_server ascii_decode blog_events)
    [Str "http://x/c.gif"; Str "http://x/page.html"]
    [Str "http://x/c.gif"; Str "http://x/b.png"]
  /\ exists p',
       main blog_server ascii_decode blog_json_loads_blog blog_json_loads blog_events
         posix_path_join (fun _ => true) (fun _ => true) (fun _ => OK tt)
         (fun _ => "?") 1 ["prog"; "http://b.example"; "KEY"] process0
       = Some (OK tt, p')
       /\ stdout p' = [] ++ ["http://x/c.gif"; "http://x/b.png"].
Proof.
  assert (Hurls : Forall2 (resolves_to blog_server ascii_decode blog_events)
                    [Str "http://x/c.gif"; Str "http://x/page.html"]
                    [Str "http://x/c.gif"; Str "http://x/b.png"]).
  { repeat constructor; intros w; reflexivity. }
  split; [exact Hurls|].
  exact (main_prints_resolved_links blog_server ascii_decode blog_json_loads_blog
           blog_json_loads blog_events posix_path_join (fun _ => true) (fun _ => true)
           (fun _ => OK tt) (fun _ => "?") 1 "prog" "http://b.example" "KEY" process0
           "77" (visit (blog_lookup_url "http://b.example" "KEY") world0)
           blog_posts
           (visit (posts_url "77" "KEY")
              (visit (blog_lookup_url "http://b.example" "KEY") world0))
           [Str "http://x/c.gif"; Str "http://x/page.html"]
           [Str "http://x/c.gif"; Str "http://x/b.png"]
           eq_refl eq_refl eq_refl Hurls).
Defined.



(** X25. In the download loop a link that is an image is requested twice:
    [follow_image_embeds] fetches it to read its content type, and
    [download_url_to_directory] fetches it again to store it. *)
Theorem image_link_is_fetched_twice :
  forall (server : list string -> string -> result response)
         (decode : list byte -> string) (html_events : string -> list event)
         (path_join : string -> string -> string) (openable : string -> bool)
         (prefix name destination : string) (w : world) (r : response) (ct : string),
    str_contains name "/" = false ->
    server (requests w) (prefix ++ String "/" name)%string = OK r ->
    server ((prefix ++ String "/" name)%string :: requests w)
      (prefix ++ String "/" name)%string = OK r ->
    content_type r = Str ct ->
    startswith ct "image" = true ->
    openable (path_join destination name) = true ->
    (url <- follow_image_embeds server decode html_events
              (prefix ++ String "/" name)%string ;;
     urlopen_value (fun u => download_url_to_directory server path_join openable
                               u destination) url) w
    = (OK (length (body r)),
       {| requests := (prefix ++ String "/" name)%string
                        :: (prefix ++ String "/" name)%string :: requests w;
          files := <[path_join destination name := body r]> (files w) |}).
Proof.
  intros server decode html_events path_join openable prefix name destination w r ct
    Hname Hfirst Hsecond Hct Himage Hopen.
  unfold bind at 1, follow_image_embeds, bind at 1, urlopen.
  rewrite Hfirst, Hct, Himage. unfold ret. cbn [urlopen_value].
  exact (download_last_segment server path_join openable prefix name destination
           (visit (prefix ++ String "/" name)%string w) r Hname Hsecond Hopen).
Qed.

Lemma image_link_is_fetched_twice_witness :
  str_contains "c.gif" "/" = false
  /\ blog_server (requests world0) "http://x/c.gif"
     = OK {| content_type := Str "image/gif"; body := list_byte_of_string "GIF89a" |}
  /\ startswith "image/gif" "image" = true
  /\ (url <- follow_image_embeds blog_server ascii_decode blog_events "http://x/c.gif" ;;
      urlopen_value (fun u => download_url_to_directory blog_server posix_path_join
                                (fun _ => true) u "out") url) world0
     = (OK 6,
        {| requests := ["http://x/c.gif"; "http://x/c.gif"];
           files := <["out/c.gif" := list_byte_of_string "GIF89a"]> ∅ |}).
Proof.
  split; [reflexivity|]. split; [reflexivity|]. split; [reflexivity|].
  exact (image_link_is_fetched_twice blog_server ascii_decode blog_events posix_path_join
           (fun _ => true) "http://x" "c.gif" "out" world0 _ "image/gif"
           eq_refl eq_refl eq_refl eq_refl eq_refl eq_refl).
Defined.

(** X26. With fewer than two arguments after the program name [main]
    raises [IndexError] at once: nothing is requested, printed or
    written. *)
Theorem main_without_arguments :
  forall (server : list string -> string -> result response)
         (decode : list byte -> string)
         (json_loads_blog : string -> result blog_object)
         (json_loads : string -> result (page post_object))
         (html_events : string -> list event)
         (path_join : string -> string -> string) (openable : string -> bool)
         (isdir : string -> bool) (makedirs : string -> result unit)
         (prettyprint_size : nat -> string)
         (fuel : nat) (argv : list string) (p : process),
    length argv < 3 ->
    main server decode json_loads_blog json_loads html_events path_join openable
      isdir makedirs prettyprint_size fuel argv p = Some (Raise IndexError, p).
Proof.
  intros server decode json_loads_blog json_loads html_events path_join openable
    isdir makedirs prettyprint_size fuel argv p Hargv.
  destruct argv as [|prog [|blog_url [|api_key argv]]]; try reflexivity.
  simpl in Hargv. lia.
Qed.

Lemma main_without_arguments_witness :
  length ["prog"; "http://b.example"] < 3
  /\ main blog_server ascii_decode blog_json_loads_blog blog_json_loads blog_events
       posix_path_join (fun _ => true) (fun _ => true) (fun _ => OK tt)
       (fun _ => "?") 1 ["prog"; "http://b.example"] process0
     = Some (Raise IndexError, process0).
Proof.
  split; [repeat constructor|].
  exact (main_without_arguments blog_server ascii_decode blog_json_loads_blog
           blog_json_loads blog_events posix_path_join (fun _ => true) (fun _ => true)
           (fun _ => OK tt) (fun _ => "?") 1 ["prog"; "http://b.example"] process0
           (le_n 3)).
Defined.

Lemma prefix_append (p s : string) : String.prefix p (p ++ s) = true.
Proof.
  induction p as [|c p IH].
  - now destruct s.
  - change (String.prefix (String c p) (String c (p ++ s)%string) = true).
    cbn [String.prefix]. now destruct (ascii_dec c c).
Qed.

Lemma only_api_requests_refl (w : world) : only_api_requests_since w w.
Proof. exists []. split; [reflexivity|constructor]. Qed.

Lemma only_api_requests_visit (w w' : world) (rest : string) :
  only_api_requests_since w w' ->
  only_api_requests_since w (visit (API_URL_BASE ++ rest) w').
Proof.
  intros [new [Hnew Hapi]]. exists ((API_URL_BASE ++ rest)%string :: new). split.
  - cbn [visit requests]. now rewrite Hnew.
  - constructor; [apply prefix_append|exact Hapi].
Qed.

Lemma get_all_posts_try_api {P : Type}
    (server : list string -> string -> result response)
    (decode : list byte -> string) (json_loads : string -> result (page P))
    (blog_id api_key : string) (data : page P) (posts : list P) (w0 w : world) :
  only_api_requests_since w0 w ->
  only_api_requests_since w0
    (snd (get_all_posts_try server decode json_loads blog_id api_key data posts w)).
Proof.
  intros Hsince. unfold get_all_posts_try, bind at 1.
  destruct (nextPageToken data) as [token|]; [|exact Hsince].
  cbn [lift dict_getitem]. unfold bind at 1.
  pose proof (call_json_world server decode json_loads
                (posts_page_url blog_id api_key token) w) as Hworld.
  destruct (call_json server decode json_loads (posts_page_url blog_id api_key token) w)
    as [[next|e] w1]; cbn [snd] in Hworld; subst w1.
  - unfold bind, lift, ret.
    destruct (dict_getitem (items next)); now apply only_api_requests_visit.
  - now apply only_api_requests_visit.
Qed.

Lemma get_all_posts_loop_api {P : Type}
    (server : list string -> string -> result response)
    (decode : list byte -> string) (json_loads : string -> result (page P))
    (blog_id api_key : string) (w0 : world) (fuel : nat) :
  forall (data : page P) (posts : list P) (w : world) (r : result (list P)) (w' : world),
    only_api_requests_since w0 w ->
    get_all_posts_loop server decode json_loads fuel blog_id api_key data posts w
    = Some (r, w') ->
    only_api_requests_since w0 w'.
Proof.
  induction fuel as [|fuel IH]; intros data posts w r w' Hsince Hloop; [discriminate|].
  cbn [get_all_posts_loop] in Hloop.
  pose proof (get_all_posts_try_api server decode json_loads blog_id api_key
                data posts w0 w Hsince) as Htry.
  destruct (get_all_posts_try server decode json_loads blog_id api_key data posts w)
    as [[[data1 posts1]|e] w1]; cbn [snd] in Htry.
  - exact (IH _ _ _ _ _ Htry Hloop).
  - destruct e; injection Hloop as _ <-; exact Htry.
Qed.

(** X27. Calling [linked_image_urls] fetches the blog id and the pages of
    the listing and nothing else: every request it makes goes to the
    Blogger API, no link of any post is requested before the result is
    iterated, and no file is written. *)
Theorem linked_image_urls_fetches_no_link :
  forall (server : list string -> string -> result response)
         (decode : list byte -> string)
         (json_loads_blog : string -> result blog_object)
         (json_loads : string -> result (page post_object))
         (html_events : string -> list event)
         (fuel : nat) (blog_url api_key : string) (w : world)
         (r : result (list (M pyval))) (w' : world),
    linked_image_urls server decode json_loads_blog json_loads html_events
      fuel blog_url api_key w = Some (r, w') ->
    (exists new : list string,
        requests w' = new ++ requests w
        /\ Forall (fun url => startswith url API_URL_BASE = true) new)
    /\ files w' = files w.
Proof.
  intros server decode json_loads_blog json_loads html_events fuel blog_url api_key
    w r w' Hcall.
  assert (Hlookup :
    snd (get_blog_id server decode json_loads_blog blog_url api_key w)
    = visit (blog_lookup_url blog_url api_key) w).
  { unfold get_blog_id, call_json_blog, bind, urlopen, lift, ret.
    destruct (server (requests w) (blog_lookup_url blog_url api_key)) as [resp|e];
      [|reflexivity].
    destruct (json_loads_blog (decode (body resp))) as [data|e]; [|reflexivity].
    now destruct (dict_getitem (id_key data)). }
  assert (Hsince : only_api_requests_since w (visit (blog_lookup_url blog_url api_key) w)).
  { apply only_api_requests_visit, only_api_requests_refl. }
  unfold linked_image_urls in Hcall.
  destruct (get_blog_id server decode json_loads_blog blog_url api_key w)
    as [[blog_id|e] w1]; cbn [snd] in Hlookup; subst w1.
  - destruct (get_all_posts server decode json_loads fuel blog_id api_key
                (visit (blog_lookup_url blog_url api_key) w))
      as [[[posts|e] w2]|] eqn:Hposts; [| |discriminate].
    + injection Hcall as _ <-. split.
      * unfold get_all_posts, bind at 1 in Hposts.
        pose proof (call_json_world server decode json_loads (posts_url blog_id api_key)
                      (visit (blog_lookup_url blog_url api_key) w)) as Hworld.
        destruct (call_json server decode json_loads (posts_url blog_id api_key)
                    (visit (blog_lookup_url blog_url api_key) w))
          as [[first|e] w1]; cbn [snd] in Hworld; subst w1; [|discriminate].
        unfold bind, lift, ret in Hposts.
        destruct (dict_getitem (items first)) as [posts0|e]; [|discriminate].
        eapply get_all_posts_loop_api; [|exact Hposts].
        now apply only_api_requests_visit.
      * now rewrite (get_all_posts_files _ _ _ _ _ _ _ _ _ Hposts).
    + injection Hcall as _ <-. split.
      * unfold get_all_posts, bind at 1 in Hposts.
        pose proof (call_json_world server decode json_loads (posts_url blog_id api_key)
                      (visit (blog_lookup_url blog_url api_key) w)) as Hworld.
        destruct (call_json server decode json_loads (posts_url blog_id api_key)
                    (visit (blog_lookup_url blog_url api_key) w))
          as [[first|e0] w1]; cbn [snd] in Hworld; subst w1.
        -- unfold bind, lift, ret in Hposts.
           destruct (dict_getitem (items first)) as [posts0|e0].
           ++ eapply get_all_posts_loop_api; [|exact Hposts].
              now apply only_api_requests_visit.
           ++ injection Hposts as _ <-. now apply only_api_requests_visit.
        -- injection Hposts as _ <-. now apply only_api_requests_visit.
      * now rewrite (get_all_posts_files _ _ _ _ _ _ _ _ _ Hposts).
  - injection Hcall as _ <-. split; [exact Hsince|reflexivity].
Qed.

Lemma linked_image_urls_fetches_no_link_witness :
  linked_image_urls blog_server ascii_decode blog_json_loads_blog blog_json_loads
    blog_events 1 "http://b.example" "KEY" world0
  = Some (OK (follow_all blog_server ascii_decode blog_events
                [OK (Str "http://x/c.gif"); OK (Str "http://x/page.html")]),
          {| requests := [posts_url "77" "KEY"; blog_lookup_url "http://b.example" "KEY"];
             files := ∅ |})
  /\ (exists new : list string,
         [posts_url "77" "KEY"; blog_lookup_url "http://b.example" "KEY"]
         = new ++ requests world0
         /\ Forall (fun url => startswith url API_URL_BASE = true) new)
  /\ (∅ : gmap string (list byte)) = files world0.
Proof.
  assert (Hcall :
    linked_image_urls blog_server ascii_decode blog_json_loads_blog blog_json_loads
      blog_events 1 "http://b.example" "KEY" world0
    = Some (OK (follow_all blog_server ascii_decode blog_events
                  [OK (Str "http://x/c.gif"); OK (Str "http://x/page.html")]),
            {| requests := [posts_url "77" "KEY";
                            blog_lookup_url "http://b.example" "KEY"];
               files := ∅ |})) by reflexivity.
  split; [exact Hcall|].
  exact (linked_image_urls_fetches_no_link blog_server ascii_decode blog_json_loads_blog
           blog_json_loads blog_events 1 "http://b.example" "KEY" world0 _ _ Hcall).
Defined.
